(** * Shallow embedding of the transaction-graph fraud analysis of [app.py]

    The detection functions [detect_cycles], [detect_fan_patterns],
    [calculate_score] and the analysis part of the Flask handler
    [upload_file] are modelled over account identifiers as strings.

    Two pieces of the Python runtime are not part of this repository and are
    kept abstract, each with the contract it documents:
    - [nx.simple_cycles], networkx's enumeration of simple cycles;
    - the iteration order of a Python [set] of strings, which CPython ties to
      the per-process string hash seed ([list(set(patterns))]).
    Python floats in the report only ever hold integral values here
    ([float(min(score, 100))], [95.0]); they are modelled as [Z].
    The wall-clock field [processing_time_seconds] is left out. *)

From Stdlib Require Import String Ascii.
From Stdlib Require Import List ZArith Lia Bool.
From Stdlib Require Import Sorted Permutation.
Import ListNotations.
Open Scope string_scope.
Open Scope list_scope.

(** ** Python string helpers *)

(** [sub in s] for strings: a substring test. *)
Fixpoint str_contains (sub s : string) : bool :=
  prefix sub s ||
  match s with
  | EmptyString => false
  | String _ s' => str_contains sub s'
  end.

(** [str(n)] for a non-negative int: its decimal digits. *)
Fixpoint dec_aux (fuel n : nat) (acc : string) : string :=
  match fuel with
  | O => acc
  | S f =>
      let acc' := String (ascii_of_nat (48 + n mod 10)) acc in
      if Nat.ltb n 10 then acc' else dec_aux f (n / 10) acc'
  end.

Definition py_str_nat (n : nat) : string := dec_aux (S n) n EmptyString.

(** [f"{n:03d}"]: zero padding to a minimum width of three. *)
Definition fmt03d (n : nat) : string :=
  let s := py_str_nat n in
  String.append (String.concat "" (repeat "0" (3 - String.length s))) s.

(** ** [nx.DiGraph]

    Nodes in insertion order and the edge relation without parallel edges,
    as [add_edge] leaves them. *)
Record graph := mk_graph {
  g_nodes : list string;
  g_edges : list (string * string)
}.

Definition empty_graph : graph := mk_graph [] [].

Definition add_node_list (n : string) (ns : list string) : list string :=
  if existsb (String.eqb n) ns then ns else ns ++ [n].

Definition edge_eqb (e f : string * string) : bool :=
  String.eqb (fst e) (fst f) && String.eqb (snd e) (snd f).

(** [G.add_edge(u, v)]. *)
Definition add_edge (G : graph) (u v : string) : graph :=
  mk_graph (add_node_list v (add_node_list u (g_nodes G)))
           (if existsb (edge_eqb (u, v)) (g_edges G) then g_edges G
            else g_edges G ++ [(u, v)]).

(** [G.in_degree(n)], [G.out_degree(n)]: number of predecessors and
    successors of [n]. *)
Definition in_degree (G : graph) (n : string) : nat :=
  length (filter (fun e => String.eqb (snd e) n) (g_edges G)).

Definition out_degree (G : graph) (n : string) : nat :=
  length (filter (fun e => String.eqb (fst e) n) (g_edges G)).

Definition succs (G : graph) (n : string) : list string :=
  map snd (filter (fun e => String.eqb (fst e) n) (g_edges G)).

(** ** Transactions *)
Record transaction := mk_tx {
  transaction_id : string;
  sender_id : string;
  receiver_id : string;
  amount : Z;
  timestamp : string
}.

(** [for _, row in df.iterrows(): G.add_edge(row["sender_id"], row["receiver_id"])] *)
Definition build_graph (txs : list transaction) : graph :=
  fold_left (fun G t => add_edge G (sender_id t) (receiver_id t)) txs empty_graph.

(** ** The runtime pieces kept abstract *)

(** Iteration order of a Python set of strings: some ordering of the
    distinct elements, fixed within one process. *)
Record set_order := mk_set_order {
  set_list : list string -> list string;
  set_list_perm : forall l, Permutation (set_list l) (nodup string_dec l)
}.

(** A simple cycle of [G] as networkx yields it: a non-empty list of distinct
    nodes, each followed by an edge to the next, the last one closing the
    cycle back to the first. *)
Fixpoint path_edgesb (G : graph) (first : string) (c : list string) : bool :=
  match c with
  | [] => true
  | [x] => existsb (edge_eqb (x, first)) (g_edges G)
  | x :: ((y :: _) as rest) =>
      existsb (edge_eqb (x, y)) (g_edges G) && path_edgesb G first rest
  end.

Fixpoint nodupb (l : list string) : bool :=
  match l with
  | [] => true
  | x :: l' => negb (existsb (String.eqb x) l') && nodupb l'
  end.

Definition is_simple_cycleb (G : graph) (c : list string) : bool :=
  match c with
  | [] => false
  | x :: _ => nodupb c && path_edgesb G x c
  end.

(** What [nx.simple_cycles] promises on one graph: every yielded list is a
    simple cycle of it. *)
Definition nx_sound (simple_cycles : graph -> list (list string)) (G : graph) : bool :=
  forallb (is_simple_cycleb G) (simple_cycles G).

Record runtime := mk_runtime {
  nx_simple_cycles : graph -> list (list string);
  py_set : set_order
}.

(** ** Detection functions *)

(** [detect_cycles] *)
Definition detect_cycles (rt : runtime) (G : graph) : list (list string) :=
  filter (fun c => Nat.leb 3 (length c) && Nat.leb (length c) 5) (nx_simple_cycles rt G).

(** [detect_fan_patterns]: the [defaultdict(list)] as an association list in
    insertion order; a node gets an entry only when one label applies. *)
Definition fan_labels (G : graph) (node : string) : list string :=
  (if Nat.leb 10 (in_degree G node) then ["fan_in"] else []) ++
  (if Nat.leb 10 (out_degree G node) then ["fan_out"] else []).

Definition detect_fan_patterns (G : graph) : list (string * list string) :=
  flat_map (fun node => match fan_labels G node with
                        | [] => []
                        | ls => [(node, ls)]
                        end) (g_nodes G).

(** [calculate_score] *)
Definition calculate_score (patterns : list string) : Z :=
  let score : Z :=
    ((if existsb (str_contains "cycle") patterns then 50 else 0) +
     (if existsb (String.eqb "fan_in") patterns then 20 else 0) +
     (if existsb (String.eqb "fan_out") patterns then 20 else 0))%Z in
  Z.min score 100.

(** ** Report records *)
Record fraud_ring := mk_ring {
  ring_id : string;
  member_accounts : list string;
  pattern_type : string;
  risk_score : Z
}.

Record suspicious_account := mk_account {
  account_id : string;
  suspicion_score : Z;
  detected_patterns : list string;
  account_ring_id : string
}.

Record report := mk_report {
  suspicious_accounts : list suspicious_account;
  fraud_rings : list fraud_ring;
  total_accounts_analyzed : nat;
  suspicious_accounts_flagged : nat;
  fraud_rings_detected : nat
}.

(** ** [defaultdict(list)] as an association list in insertion order *)
Definition dict := list (string * list string).

(** [d[k].extend(vs)]: a missing key is inserted at the end. *)
Fixpoint dd_extend (d : dict) (k : string) (vs : list string) : dict :=
  match d with
  | [] => [(k, vs)]
  | (k', ws) :: d' =>
      if String.eqb k k' then (k', ws ++ vs) :: d' else (k', ws) :: dd_extend d' k vs
  end.

(** [d[k].append(v)] *)
Definition dd_append (d : dict) (k v : string) : dict := dd_extend d k [v].

(** ** Cycle loop of [upload_file] *)

Definition cycle_label (cycle : list string) : string :=
  "cycle_length_" ++ py_str_nat (length cycle).

Definition make_ring (ring_counter : nat) (cycle : list string) : fraud_ring :=
  mk_ring ("RING_" ++ fmt03d ring_counter) cycle "cycle" 95.

(** [for cycle in cycles: ...] with [ring_counter], [suspicious_dict] and
    [fraud_rings] threaded through. *)
Fixpoint cycle_loop (cycles : list (list string)) (ring_counter : nat)
         (suspicious_dict : dict) (fraud_rings : list fraud_ring)
  : dict * list fraud_ring :=
  match cycles with
  | [] => (suspicious_dict, fraud_rings)
  | cycle :: rest =>
      let fraud_rings' := fraud_rings ++ [make_ring ring_counter cycle] in
      let suspicious_dict' :=
        fold_left (fun d account => dd_append d account (cycle_label cycle))
                  cycle suspicious_dict in
      cycle_loop rest (S ring_counter) suspicious_dict' fraud_rings'
  end.

(** [for account, patterns in fan_patterns.items(): suspicious_dict[account].extend(patterns)] *)
Definition fan_loop (fan_patterns : list (string * list string)) (d : dict) : dict :=
  fold_left (fun d ap => dd_extend d (fst ap) (snd ap)) fan_patterns d.

(** The ring lookup: first ring whose members contain [account], else ["N/A"]. *)
Definition find_ring_id (fraud_rings : list fraud_ring) (account : string) : string :=
  match find (fun ring => existsb (String.eqb account) (member_accounts ring)) fraud_rings with
  | Some ring => ring_id ring
  | None => "N/A"
  end.

Definition make_account (so : set_order) (fraud_rings : list fraud_ring)
           (entry : string * list string) : suspicious_account :=
  let '(account, patterns) := entry in
  mk_account account (calculate_score patterns) (set_list so patterns)
             (find_ring_id fraud_rings account).

(** [sorted(xs, key=lambda x: x["suspicion_score"], reverse=True)]: a stable
    sort on descending score (a stable sort has a unique result, so an
    insertion sort stands for Timsort). *)
Fixpoint insert_desc (x : suspicious_account) (l : list suspicious_account)
  : list suspicious_account :=
  match l with
  | [] => [x]
  | y :: l' =>
      if Z.ltb (suspicion_score y) (suspicion_score x) then x :: l
      else y :: insert_desc x l'
  end.

Definition sort_desc (l : list suspicious_account) : list suspicious_account :=
  fold_left (fun acc x => insert_desc x acc) l [].

(** The analysis part of [upload_file], from the graph to [result_json]. *)
Definition suspicious_dict_of (rt : runtime) (G : graph) : dict * list fraud_ring :=
  let '(d, rings) := cycle_loop (detect_cycles rt G) 1 [] [] in
  (fan_loop (detect_fan_patterns G) d, rings).

Definition unsorted_accounts (rt : runtime) (G : graph) : list suspicious_account :=
  let '(d, rings) := suspicious_dict_of rt G in
  map (make_account (py_set rt) rings) d.

Definition analyze (rt : runtime) (txs : list transaction) : report :=
  let G := build_graph txs in
  let rings := snd (suspicious_dict_of rt G) in
  let accounts := sort_desc (unsorted_accounts rt G) in
  mk_report accounts rings (length (g_nodes G)) (length accounts) (length rings).

(** ** The handler

    A Python call either returns or raises. The response is either the plain
    text message of the early return or the rendered results page; the
    second component is what is written to [outputs/result.json] ([None]:
    the file is left untouched). *)
Inductive outcome (A : Type) :=
| Returned (a : A)
| Raised (exc : string).
Arguments Returned {A} a.
Arguments Raised {A} exc.

Inductive response :=
| Text (msg : string)
| Rendered (rings : list fraud_ring) (accounts : list suspicious_account).

Definition required_columns : list string :=
  ["transaction_id"; "sender_id"; "receiver_id"; "amount"; "timestamp"].

Definition invalid_csv_msg : string :=
  "Invalid CSV format. Please follow required structure.".

(** [upload_file] after [pd.read_csv]: [columns] are [df.columns], [txs] the
    rows. *)
Definition upload_file (rt : runtime) (columns : list string) (txs : list transaction)
  : outcome (response * option report) :=
  if negb (forallb (fun c => existsb (String.eqb c) columns) required_columns)
  then Returned (Text invalid_csv_msg, None)
  else
    let r := analyze rt txs in
    Returned (Rendered (fraud_rings r) (suspicious_accounts r), Some r).

(** ** Reference instances of the runtime pieces *)

(** Distinct elements in first-occurrence order, and the reverse order. *)
Definition set_first : set_order :=
  mk_set_order (nodup string_dec) (fun l => Permutation_refl _).

Definition set_reversed : set_order :=
  mk_set_order (fun l => rev (nodup string_dec l))
               (fun l => Permutation_sym (Permutation_rev _)).

Fixpoint index_of (x : string) (l : list string) : nat :=
  match l with
  | [] => 0
  | y :: l' => if String.eqb x y then 0 else S (index_of x l')
  end.

(** A depth-first enumeration of the simple cycles of [G], each listed once,
    from its node that comes first in [g_nodes G]. *)
Fixpoint cycles_from (G : graph) (fuel : nat) (start : string)
         (path : list string) (cur : string) : list (list string) :=
  match fuel with
  | O => []
  | S f =>
      flat_map (fun w =>
        if String.eqb w start then [rev path]
        else if Nat.ltb (index_of start (g_nodes G)) (index_of w (g_nodes G))
                && negb (existsb (String.eqb w) path)
        then cycles_from G f start (w :: path) w
        else []) (succs G cur)
  end.

Definition dfs_simple_cycles (G : graph) : list (list string) :=
  flat_map (fun s => cycles_from G (length (g_nodes G)) s [s] s) (g_nodes G).

Definition rt_ref : runtime := mk_runtime dfs_simple_cycles set_first.

(** * Properties *)

(** ** Scoring *)
Module Scoring.

Definition allowed_labels : list string :=
  ["cycle_length_3"; "cycle_length_4"; "cycle_length_5"; "fan_in"; "fan_out"].

Definition is_cycle_label (p : string) : bool :=
  existsb (String.eqb p) ["cycle_length_3"; "cycle_length_4"; "cycle_length_5"].

Lemma existsb_same_members (f : string -> bool) (l l' : list string) :
  (forall x, In x l <-> In x l') -> existsb f l = existsb f l'.
Proof.
  intros Hm.
  destruct (existsb f l) eqn:E1, (existsb f l') eqn:E2; try reflexivity.
  - apply existsb_exists in E1 as (x & Hx & Hf).
    assert (existsb f l' = true) as E by (apply existsb_exists; exists x; split; [apply Hm|]; assumption).
    congruence.
  - apply existsb_exists in E2 as (x & Hx & Hf).
    assert (existsb f l = true) as E by (apply existsb_exists; exists x; split; [apply Hm|]; assumption).
    congruence.
Qed.

Lemma existsb_Forall_ext (P : string -> Prop) (f g : string -> bool) (l : list string) :
  (forall x, P x -> f x = g x) -> Forall P l -> existsb f l = existsb g l.
Proof.
  intros Hfg HP; induction HP as [|x l Hx _ IH]; simpl; [reflexivity|].
  rewrite Hfg, IH by assumption; reflexivity.
Qed.

Lemma contains_cycle_allowed (p : string) :
  In p allowed_labels -> str_contains "cycle" p = is_cycle_label p.
Proof.
  intros H; repeat (destruct H as [<-|H]; [reflexivity|]); contradiction.
Qed.

Lemma score_same_members (ps ps' : list string) :
  (forall x, In x ps <-> In x ps') -> calculate_score ps = calculate_score ps'.
Proof.
  intros Hm; unfold calculate_score.
  rewrite !(existsb_same_members _ ps ps' Hm); reflexivity.
Qed.

(** C2: on labels drawn from the five pattern labels, the score is
    [min(100, 50*[cycle label] + 20*[fan_in] + 20*[fan_out])], lies in
    [0, 100], and depends only on which labels occur, so neither the order
    of the labels nor duplicates change it. *)
Theorem calculate_score_policy (ps : list string) :
  Forall (fun p => In p allowed_labels) ps ->
  calculate_score ps =
    Z.min 100 ((if existsb is_cycle_label ps then 50 else 0) +
               (if existsb (String.eqb "fan_in") ps then 20 else 0) +
               (if existsb (String.eqb "fan_out") ps then 20 else 0))%Z
  /\ (0 <= calculate_score ps <= 100)%Z
  /\ (forall ps', (forall x, In x ps <-> In x ps') ->
                  calculate_score ps' = calculate_score ps).
Proof.
  intros Hall.
  assert (Ec : existsb (str_contains "cycle") ps = existsb is_cycle_label ps)
    by (apply (existsb_Forall_ext _ _ _ _ contains_cycle_allowed Hall)).
  split; [|split].
  - unfold calculate_score; rewrite Ec, Z.min_comm; reflexivity.
  - unfold calculate_score.
    destruct (existsb _ ps), (existsb (String.eqb "fan_in") ps),
             (existsb (String.eqb "fan_out") ps); simpl; lia.
  - intros ps' Hm; symmetry; apply score_same_members; exact Hm.
Qed.

Lemma calculate_score_policy_witness :
  Forall (fun p => In p allowed_labels) ["fan_out"; "cycle_length_4"; "fan_out"] /\
  calculate_score ["fan_out"; "cycle_length_4"; "fan_out"] = 70%Z.
Proof.
  split.
  - repeat constructor; simpl; tauto.
  - destruct (calculate_score_policy ["fan_out"; "cycle_length_4"; "fan_out"])
      as [E _]; [repeat constructor; simpl; tauto|].
    rewrite E; reflexivity.
Defined.

End Scoring.

(** ** The suspicious-account dictionary *)
Module Dict.

Fixpoint dlookup (d : dict) (k : string) : list string :=
  match d with
  | [] => []
  | (k', ws) :: d' => if String.eqb k k' then ws else dlookup d' k
  end.

Lemma dlookup_extend (d : dict) (k a : string) (vs : list string) :
  dlookup (dd_extend d k vs) a = dlookup d a ++ (if String.eqb a k then vs else []).
Proof.
  induction d as [|[k' ws] d IH]; simpl.
  - destruct (String.eqb a k); reflexivity.
  - destruct (String.eqb k k') eqn:Ekk'; simpl.
    + apply String.eqb_eq in Ekk'; subst k'.
      destruct (String.eqb a k); [reflexivity|].
      rewrite app_nil_r; reflexivity.
    + destruct (String.eqb a k') eqn:Eak'; [|exact IH].
      apply String.eqb_eq in Eak'; subst k'.
      destruct (String.eqb a k) eqn:Eak; [|rewrite app_nil_r; reflexivity].
      apply String.eqb_eq in Eak; subst k.
      rewrite String.eqb_refl in Ekk'; discriminate.
Qed.

Lemma keys_extend (d : dict) (k : string) (vs : list string) :
  map fst (dd_extend d k vs) = add_node_list k (map fst d).
Proof.
  unfold add_node_list.
  induction d as [|[k' ws] d IH]; simpl; [reflexivity|].
  destruct (String.eqb k k') eqn:E; simpl; [reflexivity|].
  rewrite IH; destruct (existsb (String.eqb k) (map fst d)); reflexivity.
Qed.

Lemma add_node_list_In (x n : string) (ns : list string) :
  In x (add_node_list n ns) <-> In x ns \/ x = n.
Proof.
  unfold add_node_list.
  destruct (existsb (String.eqb n) ns) eqn:E.
  - apply existsb_exists in E as (y & Hy & Ey); apply String.eqb_eq in Ey; subst y.
    split; [tauto|]; intros [H| ->]; assumption.
  - rewrite in_app_iff; simpl; split; intros [H|H];
      [left; exact H | right; destruct H as [->|[]]; reflexivity
      | left; exact H | right; left; symmetry; exact H].
Qed.

Lemma add_node_list_NoDup (n : string) (ns : list string) :
  NoDup ns -> NoDup (add_node_list n ns).
Proof.
  unfold add_node_list; intros H.
  destruct (existsb (String.eqb n) ns) eqn:E; [exact H|].
  apply NoDup_app; [exact H|repeat constructor; simpl; tauto|].
  intros x Hx [<-|[]].
  assert (existsb (String.eqb n) ns = true)
    by (apply existsb_exists; exists n; split; [exact Hx|apply String.eqb_refl]).
  congruence.
Qed.

Lemma In_dlookup (d : dict) (k : string) (ws : list string) :
  NoDup (map fst d) -> In (k, ws) d -> dlookup d k = ws.
Proof.
  induction d as [|[k' ws'] d IH]; simpl; [tauto|].
  intros Hnd [E|H]; inversion Hnd as [|? ? Hnin Hnd']; subst.
  - injection E as -> ->; rewrite String.eqb_refl; reflexivity.
  - destruct (String.eqb k k') eqn:E.
    + apply String.eqb_eq in E; subst k'.
      exfalso; apply Hnin; apply (in_map fst _ (k, ws)); exact H.
    + apply IH; assumption.
Qed.

Lemma dlookup_nonempty_key (d : dict) (k : string) :
  dlookup d k <> [] -> exists ws, In (k, ws) d /\ dlookup d k = ws.
Proof.
  induction d as [|[k' ws'] d IH]; simpl; [tauto|].
  destruct (String.eqb k k') eqn:E.
  - apply String.eqb_eq in E; subst k'; intros _; exists ws'; tauto.
  - intros H; destruct (IH H) as (ws & Hin & Hl); exists ws; tauto.
Qed.

(** The labels the cycle loop gives to [a]: one [cycle_length_k] per
    occurrence of [a] in a cycle of length [k]. *)
Definition cycle_labels_of (cycles : list (list string)) (a : string) : list string :=
  flat_map (fun c => flat_map (fun x => if String.eqb a x then [cycle_label c] else []) c)
           cycles.

Fixpoint make_rings (n : nat) (cycles : list (list string)) : list fraud_ring :=
  match cycles with
  | [] => []
  | c :: cs => make_ring n c :: make_rings (S n) cs
  end.

Lemma fold_append_lookup (c : list string) (lbl : string) (d : dict) (a : string) :
  dlookup (fold_left (fun d account => dd_append d account lbl) c d) a =
  dlookup d a ++ flat_map (fun x => if String.eqb a x then [lbl] else []) c.
Proof.
  revert d; induction c as [|x c IH]; intros d; simpl; [rewrite app_nil_r; reflexivity|].
  rewrite IH; unfold dd_append; rewrite dlookup_extend, app_assoc; reflexivity.
Qed.

Lemma fold_append_keys (c : list string) (lbl : string) (d : dict) :
  map fst (fold_left (fun d account => dd_append d account lbl) c d) =
  fold_left (fun ks x => add_node_list x ks) c (map fst d).
Proof.
  revert d; induction c as [|x c IH]; intros d; simpl; [reflexivity|].
  rewrite IH; unfold dd_append; rewrite keys_extend; reflexivity.
Qed.

Lemma cycle_loop_rings (cs : list (list string)) (n : nat) (d : dict) (r : list fraud_ring) :
  snd (cycle_loop cs n d r) = r ++ make_rings n cs.
Proof.
  revert n d r; induction cs as [|c cs IH]; intros n d r; simpl.
  - rewrite app_nil_r; reflexivity.
  - rewrite IH, <- app_assoc; reflexivity.
Qed.

Lemma cycle_loop_lookup (cs : list (list string)) (n : nat) (d : dict) (r : list fraud_ring) (a : string) :
  dlookup (fst (cycle_loop cs n d r)) a = dlookup d a ++ cycle_labels_of cs a.
Proof.
  revert n d r; induction cs as [|c cs IH]; intros n d r; simpl.
  - rewrite app_nil_r; reflexivity.
  - rewrite IH, fold_append_lookup, app_assoc; reflexivity.
Qed.

Lemma cycle_loop_keys (cs : list (list string)) (n : nat) (d : dict) (r : list fraud_ring) :
  map fst (fst (cycle_loop cs n d r)) =
  fold_left (fun ks x => add_node_list x ks) (concat cs) (map fst d).
Proof.
  revert n d r; induction cs as [|c cs IH]; intros n d r; simpl; [reflexivity|].
  rewrite IH, fold_append_keys, fold_left_app; reflexivity.
Qed.

Lemma fan_loop_lookup (fans : list (string * list string)) (d : dict) (a : string) :
  dlookup (fan_loop fans d) a =
  dlookup d a ++ flat_map (fun ap => if String.eqb a (fst ap) then snd ap else []) fans.
Proof.
  unfold fan_loop; revert d; induction fans as [|ap fans IH]; intros d; simpl.
  - rewrite app_nil_r; reflexivity.
  - rewrite IH, dlookup_extend, app_assoc; reflexivity.
Qed.

Lemma fan_loop_keys (fans : list (string * list string)) (d : dict) :
  map fst (fan_loop fans d) =
  fold_left (fun ks x => add_node_list x ks) (map fst fans) (map fst d).
Proof.
  unfold fan_loop; revert d; induction fans as [|ap fans IH]; intros d; simpl; [reflexivity|].
  rewrite IH, keys_extend; reflexivity.
Qed.

Lemma fold_add_node_list_NoDup (l ks : list string) :
  NoDup ks -> NoDup (fold_left (fun ks x => add_node_list x ks) l ks).
Proof.
  revert ks; induction l as [|x l IH]; intros ks H; simpl; [exact H|].
  apply IH, add_node_list_NoDup, H.
Qed.

Lemma fold_add_node_list_In (l ks : list string) (x : string) :
  In x (fold_left (fun ks y => add_node_list y ks) l ks) <-> In x ks \/ In x l.
Proof.
  revert ks; induction l as [|y l IH]; intros ks; simpl; [tauto|].
  rewrite IH, add_node_list_In; split; intros; intuition congruence.
Qed.

End Dict.

(** ** The stable descending sort *)
Module Sort.

Definition score_ge (x y : suspicious_account) : Prop :=
  (suspicion_score y <= suspicion_score x)%Z.

Lemma insert_desc_perm (x : suspicious_account) (l : list suspicious_account) :
  Permutation (insert_desc x l) (x :: l).
Proof.
  induction l as [|y l IH]; simpl; [reflexivity|].
  destruct (Z.ltb (suspicion_score y) (suspicion_score x)); [reflexivity|].
  rewrite IH; apply perm_swap.
Qed.

Lemma sort_desc_perm_acc (l acc : list suspicious_account) :
  Permutation (fold_left (fun acc x => insert_desc x acc) l acc) (l ++ acc).
Proof.
  revert acc; induction l as [|x l IH]; intros acc; simpl; [reflexivity|].
  rewrite IH, insert_desc_perm; symmetry; apply Permutation_middle.
Qed.

Lemma sort_desc_perm (l : list suspicious_account) : Permutation (sort_desc l) l.
Proof.
  unfold sort_desc; rewrite sort_desc_perm_acc, app_nil_r; reflexivity.
Qed.

Lemma sorted_head_bound (y : suspicious_account) (l : list suspicious_account) :
  Sorted score_ge (y :: l) -> Forall (score_ge y) l.
Proof.
  intros H; apply Sorted_StronglySorted in H.
  - inversion H; assumption.
  - intros a b c; unfold score_ge; lia.
Qed.

Lemma insert_desc_sorted (x : suspicious_account) (l : list suspicious_account) :
  Sorted score_ge l -> Sorted score_ge (insert_desc x l).
Proof.
  induction l as [|y l IH]; simpl; intros H.
  - repeat constructor.
  - destruct (Z.ltb (suspicion_score y) (suspicion_score x)) eqn:E.
    + apply Z.ltb_lt in E; constructor; [exact H|constructor; unfold score_ge; lia].
    + apply Z.ltb_ge in E.
      apply Sorted_inv in H as [Hl Hhd].
      constructor; [apply IH, Hl|].
      destruct l as [|z l']; simpl.
      * constructor; unfold score_ge; lia.
      * inversion Hhd; subst.
        destruct (Z.ltb (suspicion_score z) (suspicion_score x));
          constructor; unfold score_ge in *; lia.
Qed.

Lemma sort_desc_sorted (l : list suspicious_account) : Sorted score_ge (sort_desc l).
Proof.
  unfold sort_desc.
  assert (Hacc : Sorted score_ge (@nil suspicious_account)) by constructor.
  revert Hacc; generalize (@nil suspicious_account).
  induction l as [|x l IH]; intros acc Hacc; simpl; [exact Hacc|].
  apply IH, insert_desc_sorted, Hacc.
Qed.

Definition with_score (s : Z) (x : suspicious_account) : bool :=
  Z.eqb (suspicion_score x) s.

Lemma filter_insert_desc (s : Z) (x : suspicious_account) (l : list suspicious_account) :
  Sorted score_ge l ->
  filter (with_score s) (insert_desc x l) =
  filter (with_score s) l ++ filter (with_score s) [x].
Proof.
  induction l as [|y l IH]; intros H; [reflexivity|].
  cbn [insert_desc].
  destruct (Z.ltb (suspicion_score y) (suspicion_score x)) eqn:E.
  - apply Z.ltb_lt in E.
    destruct (with_score s x) eqn:Ex.
    + assert (Hn : filter (with_score s) (y :: l) = []).
      { apply Z.eqb_eq in Ex; subst s.
        pose proof (sorted_head_bound y l H) as Hb.
        assert (Hall : Forall (fun z => (suspicion_score z < suspicion_score x)%Z) (y :: l)).
        { constructor; [exact E|].
          eapply Forall_impl; [|exact Hb]; intros z; unfold score_ge; lia. }
        clear -Hall; induction Hall as [|z l' Hz _ IHa]; [reflexivity|].
        cbn [filter]; unfold with_score at 1.
        rewrite (proj2 (Z.eqb_neq _ _)) by lia; exact IHa. }
      rewrite Hn; cbn [filter]; rewrite Ex; cbn [filter] in Hn; rewrite Hn; reflexivity.
    + cbn [filter]; rewrite Ex, app_nil_r; reflexivity.
  - apply Sorted_inv in H as [Hl _].
    cbn [filter]; rewrite IH by exact Hl.
    destruct (with_score s y); reflexivity.
Qed.

Lemma filter_fold_insert (s : Z) (l acc : list suspicious_account) :
  Sorted score_ge acc ->
  filter (with_score s) (fold_left (fun acc x => insert_desc x acc) l acc) =
  filter (with_score s) acc ++ filter (with_score s) l.
Proof.
  revert acc; induction l as [|x l IH]; intros acc Hacc; cbn [fold_left].
  - rewrite app_nil_r; reflexivity.
  - rewrite IH by (apply insert_desc_sorted, Hacc).
    rewrite filter_insert_desc by exact Hacc.
    rewrite <- app_assoc, <- filter_app; reflexivity.
Qed.

Lemma filter_sort_desc (s : Z) (l : list suspicious_account) :
  filter (with_score s) (sort_desc l) = filter (with_score s) l.
Proof.
  unfold sort_desc; rewrite filter_fold_insert by constructor; reflexivity.
Qed.

(** Sorting commutes with any score-preserving pointwise relation. *)
Lemma insert_desc_Forall2 (R : suspicious_account -> suspicious_account -> Prop)
      (x x' : suspicious_account) (l l' : list suspicious_account) :
  (forall a b, R a b -> suspicion_score a = suspicion_score b) ->
  R x x' -> Forall2 R l l' -> Forall2 R (insert_desc x l) (insert_desc x' l').
Proof.
  intros HR Hx Hl; induction Hl as [|y y' l l' Hy Hl IH]; simpl.
  - repeat constructor; assumption.
  - rewrite (HR _ _ Hx), (HR _ _ Hy).
    destruct (Z.ltb (suspicion_score y') (suspicion_score x')).
    + repeat constructor; assumption.
    + constructor; assumption.
Qed.

Lemma sort_desc_Forall2 (R : suspicious_account -> suspicious_account -> Prop)
      (l l' : list suspicious_account) :
  (forall a b, R a b -> suspicion_score a = suspicion_score b) ->
  Forall2 R l l' -> Forall2 R (sort_desc l) (sort_desc l').
Proof.
  intros HR Hl; unfold sort_desc.
  assert (Hacc : Forall2 R (@nil suspicious_account) (@nil suspicious_account)) by constructor.
  revert Hacc; generalize (@nil suspicious_account) at 1 3.
  generalize (@nil suspicious_account).
  induction Hl as [|x x' l l' Hx Hl IH]; intros acc' acc Hacc; simpl; [exact Hacc|].
  apply IH, insert_desc_Forall2; assumption.
Qed.

End Sort.

(** ** The assembled report *)
Module Analysis.
Import Dict.

Definition cycles_of (rt : runtime) (txs : list transaction) : list (list string) :=
  detect_cycles rt (build_graph txs).

Definition fans_of (txs : list transaction) : list (string * list string) :=
  detect_fan_patterns (build_graph txs).

(** The final [suspicious_dict] of [upload_file]. *)
Definition final_dict (rt : runtime) (txs : list transaction) : dict :=
  fst (suspicious_dict_of rt (build_graph txs)).

Definition fan_labels_in (fans : list (string * list string)) (a : string) : list string :=
  flat_map (fun ap => if String.eqb a (fst ap) then snd ap else []) fans.

Lemma suspicious_dict_of_eq (rt : runtime) (G : graph) :
  suspicious_dict_of rt G =
  (fan_loop (detect_fan_patterns G) (fst (cycle_loop (detect_cycles rt G) 1 [] [])),
   make_rings 1 (detect_cycles rt G)).
Proof.
  unfold suspicious_dict_of.
  pose proof (cycle_loop_rings (detect_cycles rt G) 1 [] []) as Hr.
  destruct (cycle_loop (detect_cycles rt G) 1 [] []) as [d r]; simpl in *.
  rewrite Hr; reflexivity.
Qed.

Lemma fraud_rings_analyze (rt : runtime) (txs : list transaction) :
  fraud_rings (analyze rt txs) = make_rings 1 (cycles_of rt txs).
Proof.
  unfold analyze, cycles_of; rewrite suspicious_dict_of_eq; reflexivity.
Qed.

Lemma final_dict_lookup (rt : runtime) (txs : list transaction) (a : string) :
  dlookup (final_dict rt txs) a =
  cycle_labels_of (cycles_of rt txs) a ++ fan_labels_in (fans_of txs) a.
Proof.
  unfold final_dict; rewrite suspicious_dict_of_eq; simpl.
  rewrite fan_loop_lookup, cycle_loop_lookup; reflexivity.
Qed.

Lemma final_dict_keys (rt : runtime) (txs : list transaction) :
  map fst (final_dict rt txs) =
  fold_left (fun ks x => add_node_list x ks)
            (concat (cycles_of rt txs) ++ map fst (fans_of txs)) [].
Proof.
  unfold final_dict; rewrite suspicious_dict_of_eq; simpl.
  rewrite fan_loop_keys, cycle_loop_keys, fold_left_app; reflexivity.
Qed.

Lemma final_dict_NoDup (rt : runtime) (txs : list transaction) :
  NoDup (map fst (final_dict rt txs)).
Proof.
  rewrite final_dict_keys; apply fold_add_node_list_NoDup; constructor.
Qed.

Lemma final_dict_keys_In (rt : runtime) (txs : list transaction) (a : string) :
  In a (map fst (final_dict rt txs)) <->
  In a (concat (cycles_of rt txs)) \/ In a (map fst (fans_of txs)).
Proof.
  rewrite final_dict_keys, fold_add_node_list_In, in_app_iff; simpl; tauto.
Qed.

Lemma unsorted_accounts_eq (rt : runtime) (txs : list transaction) :
  unsorted_accounts rt (build_graph txs) =
  map (make_account (py_set rt) (make_rings 1 (cycles_of rt txs))) (final_dict rt txs).
Proof.
  unfold unsorted_accounts, final_dict, cycles_of; rewrite suspicious_dict_of_eq; reflexivity.
Qed.

Lemma In_suspicious_accounts (rt : runtime) (txs : list transaction) (sa : suspicious_account) :
  In sa (suspicious_accounts (analyze rt txs)) <->
  exists a, In a (map fst (final_dict rt txs)) /\
            sa = make_account (py_set rt) (make_rings 1 (cycles_of rt txs))
                              (a, dlookup (final_dict rt txs) a).
Proof.
  unfold analyze; simpl.
  split.
  - intros H; apply (Permutation_in _ (Sort.sort_desc_perm _)) in H.
    rewrite unsorted_accounts_eq in H.
    apply in_map_iff in H as ([a ps] & <- & Hin).
    exists a; split; [apply (in_map fst _ (a, ps)), Hin|].
    rewrite (In_dlookup _ a ps (final_dict_NoDup rt txs) Hin); reflexivity.
  - intros (a & Ha & ->).
    apply (Permutation_in _ (Permutation_sym (Sort.sort_desc_perm _))).
    rewrite unsorted_accounts_eq.
    apply in_map_iff in Ha as ([a' ps] & Ea & Hin); simpl in Ea; subst a'.
    apply in_map_iff; exists (a, ps); split; [|exact Hin].
    rewrite (In_dlookup _ a ps (final_dict_NoDup rt txs) Hin); reflexivity.
Qed.

Lemma set_list_In (so : set_order) (l : list string) (x : string) :
  In x (set_list so l) <-> In x l.
Proof.
  split; intros H.
  - apply (Permutation_in _ (set_list_perm so l)) in H; apply nodup_In in H; exact H.
  - apply (Permutation_in _ (Permutation_sym (set_list_perm so l))), nodup_In, H.
Qed.

Lemma make_rings_In (n : nat) (cs : list (list string)) (r : fraud_ring) :
  In r (make_rings n cs) -> exists i, n <= i /\ In (member_accounts r) cs /\ r = make_ring i (member_accounts r).
Proof.
  revert n; induction cs as [|c cs IH]; intros n; simpl; [tauto|].
  intros [<-|H].
  - exists n; simpl; auto.
  - destruct (IH (S n) H) as (i & Hi & Hc & Er); exists i; repeat split; auto; lia.
Qed.

Lemma make_rings_combine (n : nat) (cs : list (list string)) :
  make_rings n cs =
  map (fun ic => mk_ring ("RING_" ++ fmt03d (fst ic)) (snd ic) "cycle" 95)
      (combine (seq n (length cs)) cs).
Proof.
  revert n; induction cs as [|c cs IH]; intros n; simpl; [reflexivity|].
  rewrite IH; reflexivity.
Qed.

Lemma member_existsb (a : string) (c : list string) :
  existsb (String.eqb a) c = true <-> In a c.
Proof.
  rewrite existsb_exists; split.
  - intros (x & Hx & E); apply String.eqb_eq in E; subst; exact Hx.
  - intros H; exists a; split; [exact H|apply String.eqb_refl].
Qed.

Lemma find_ring_id_make_rings (n : nat) (cs : list (list string)) (a : string) :
  (exists c, In c cs /\ In a c) ->
  exists i, find_ring_id (make_rings n cs) a = ("RING_" ++ fmt03d i)%string.
Proof.
  unfold find_ring_id; revert n; induction cs as [|c cs IH]; intros n (c' & Hc' & Ha); simpl in *.
  - contradiction.
  - destruct (existsb (String.eqb a) c) eqn:E; simpl; [exists n; reflexivity|].
    destruct Hc' as [->|Hc']; [apply member_existsb in Ha; congruence|].
    apply IH; exists c'; tauto.
Qed.

Lemma find_ring_id_none (rings : list fraud_ring) (a : string) :
  (forall r, In r rings -> ~ In a (member_accounts r)) ->
  find_ring_id rings a = "N/A".
Proof.
  unfold find_ring_id; intros H.
  destruct (find _ rings) as [r|] eqn:E; [|reflexivity].
  apply find_some in E as [Hr Hm]; apply member_existsb in Hm.
  exfalso; apply (H r Hr Hm).
Qed.

Lemma cycle_labels_of_In (cs : list (list string)) (a p : string) :
  In p (cycle_labels_of cs a) <-> exists c, In c cs /\ In a c /\ p = cycle_label c.
Proof.
  unfold cycle_labels_of; rewrite in_flat_map; split.
  - intros (c & Hc & Hp); apply in_flat_map in Hp as (x & Hx & Hp).
    destruct (String.eqb a x) eqn:E; [|contradiction].
    apply String.eqb_eq in E; subst x; destruct Hp as [<-|[]].
    exists c; tauto.
  - intros (c & Hc & Ha & ->); exists c; split; [exact Hc|].
    apply in_flat_map; exists a; split; [exact Ha|].
    rewrite String.eqb_refl; left; reflexivity.
Qed.

Lemma fan_labels_shape (G : graph) (a p : string) :
  In p (fan_labels_in (detect_fan_patterns G) a) -> p = "fan_in" \/ p = "fan_out".
Proof.
  unfold fan_labels_in, detect_fan_patterns.
  intros H; apply in_flat_map in H as (ap & Hap & Hp).
  apply in_flat_map in Hap as (node & _ & Hn).
  destruct (fan_labels G node) as [|l ls] eqn:E; [contradiction|].
  destruct Hn as [<-|[]]; simpl in Hp.
  destruct (String.eqb a node); [|contradiction].
  rewrite <- E in Hp; unfold fan_labels in Hp.
  destruct (Nat.leb 10 (in_degree G node)), (Nat.leb 10 (out_degree G node));
    simpl in Hp; intuition congruence.
Qed.

End Analysis.

Section FirstRing.
Import Analysis.

Lemma find_ring_id_spec (rings : list fraud_ring) (a : string) :
  (exists pre r post, rings = pre ++ r :: post /\ In a (member_accounts r) /\
     (forall r', In r' pre -> ~ In a (member_accounts r')) /\
     find_ring_id rings a = ring_id r)
  \/ ((forall r, In r rings -> ~ In a (member_accounts r)) /\ find_ring_id rings a = "N/A").
Proof.
  unfold find_ring_id; induction rings as [|r rings IH]; simpl.
  - right; split; [tauto|reflexivity].
  - destruct (existsb (String.eqb a) (member_accounts r)) eqn:E.
    + left; exists [], r, rings; repeat split; [apply member_existsb, E|simpl; tauto].
    + assert (Hr : ~ In a (member_accounts r))
        by (intros H; apply member_existsb in H; congruence).
      destruct IH as [(pre & r0 & post & -> & Hin & Hpre & Hid)|[Hnone Hid]].
      * left; exists (r :: pre), r0, post; repeat split; try assumption.
        intros r' [<-|H]; [exact Hr|apply Hpre, H].
      * right; split; [|exact Hid].
        intros r' [<-|H]; [exact Hr|apply Hnone, H].
Qed.

End FirstRing.

(** ** Ring records (C5) *)

(** C5: the rings are exactly one record per detected cycle, in detection
    order: the [i]-th ring (from 1) has [ring_id] ["RING_"] followed by [i]
    formatted with [03d], the cycle as members, pattern ["cycle"] and risk
    score [95]. *)
Theorem fraud_rings_one_per_cycle (rt : runtime) (txs : list transaction) :
  let cycles := detect_cycles rt (build_graph txs) in
  fraud_rings (analyze rt txs) =
    map (fun ic => mk_ring ("RING_" ++ fmt03d (fst ic)) (snd ic) "cycle" 95)
        (combine (seq 1 (length cycles)) cycles)
  /\ length (fraud_rings (analyze rt txs)) = length cycles.
Proof.
  intros cycles.
  rewrite Analysis.fraud_rings_analyze, Analysis.make_rings_combine.
  split; [reflexivity|].
  rewrite length_map, length_combine, length_seq, Nat.min_id; reflexivity.
Qed.

(** ** Ring members are flagged (C4) *)

(** C4: every member of every fraud ring is a suspicious account whose
    detected patterns contain [cycle_length_k], [k] the ring's length. *)
Theorem ring_members_flagged (rt : runtime) (txs : list transaction) :
  forall r, In r (fraud_rings (analyze rt txs)) ->
  forall a, In a (member_accounts r) ->
  exists sa, In sa (suspicious_accounts (analyze rt txs)) /\ account_id sa = a /\
    In ("cycle_length_" ++ py_str_nat (length (member_accounts r)))%string
       (detected_patterns sa).
Proof.
  intros r Hr a Ha.
  rewrite Analysis.fraud_rings_analyze in Hr.
  destruct (Analysis.make_rings_In _ _ _ Hr) as (i & _ & Hc & _).
  set (cs := Analysis.cycles_of rt txs) in *.
  exists (make_account (py_set rt) (Dict.make_rings 1 cs)
                       (a, Dict.dlookup (Analysis.final_dict rt txs) a)).
  split; [|split; [reflexivity|]].
  - apply Analysis.In_suspicious_accounts; exists a; split; [|reflexivity].
    apply Analysis.final_dict_keys_In; left.
    apply in_concat; exists (member_accounts r); split; assumption.
  - simpl; apply Analysis.set_list_In.
    rewrite Analysis.final_dict_lookup; apply in_or_app; left.
    apply Analysis.cycle_labels_of_In; exists (member_accounts r); repeat split; assumption.
Qed.

(** ** Ring lookup of an account (C6) *)

(** C6: the [ring_id] of a suspicious account is that of the first ring, in
    ring-list order, whose members contain it, and ["N/A"] if there is none. *)
Theorem account_ring_id_first_ring (rt : runtime) (txs : list transaction)
        (sa : suspicious_account) :
  In sa (suspicious_accounts (analyze rt txs)) ->
  let a := account_id sa in
  let rings := fraud_rings (analyze rt txs) in
  (exists pre r post, rings = pre ++ r :: post /\ In a (member_accounts r) /\
     (forall r', In r' pre -> ~ In a (member_accounts r')) /\
     account_ring_id sa = ring_id r)
  \/ ((forall r, In r rings -> ~ In a (member_accounts r)) /\ account_ring_id sa = "N/A").
Proof.
  intros Hsa a rings.
  apply Analysis.In_suspicious_accounts in Hsa as (a' & _ & ->).
  subst a rings; rewrite Analysis.fraud_rings_analyze; simpl.
  apply find_ring_id_spec.
Qed.

(** ** Cycle labels and ring ids agree (C10) *)

(** C10: a suspicious account with a [cycle_length_*] label has a ring id of
    the form [RING_NNN] (not ["N/A"]); an account whose labels are all
    [fan_in] or [fan_out] has ring id ["N/A"]. *)
Theorem cycle_label_iff_ring (rt : runtime) (txs : list transaction)
        (sa : suspicious_account) :
  In sa (suspicious_accounts (analyze rt txs)) ->
  ((exists p, In p (detected_patterns sa) /\ prefix "cycle_length_" p = true) ->
     account_ring_id sa <> "N/A" /\
     exists i, account_ring_id sa = ("RING_" ++ fmt03d i)%string)
  /\ ((forall p, In p (detected_patterns sa) -> p = "fan_in" \/ p = "fan_out") ->
      account_ring_id sa = "N/A").
Proof.
  intros Hsa.
  apply Analysis.In_suspicious_accounts in Hsa as (a & _ & ->); simpl.
  set (cs := Analysis.cycles_of rt txs).
  split.
  - intros (p & Hp & Hpre).
    apply Analysis.set_list_In in Hp; rewrite Analysis.final_dict_lookup in Hp.
    apply in_app_or in Hp as [Hp|Hp].
    + apply Analysis.cycle_labels_of_In in Hp as (c & Hc & Ha & _).
      destruct (Analysis.find_ring_id_make_rings 1 cs a) as [i Ei];
        [exists c; split; assumption|].
      rewrite Ei; split; [discriminate|exists i; reflexivity].
    + apply Analysis.fan_labels_shape in Hp as [->| ->]; discriminate.
  - intros Hfan; apply Analysis.find_ring_id_none.
    intros r Hr Ha.
    destruct (Analysis.make_rings_In _ _ _ Hr) as (i & _ & Hc & _).
    assert (Hl : In (cycle_label (member_accounts r))
                    (set_list (py_set rt) (Dict.dlookup (Analysis.final_dict rt txs) a))).
    { apply Analysis.set_list_In; rewrite Analysis.final_dict_lookup; apply in_or_app; left.
      apply Analysis.cycle_labels_of_In; exists (member_accounts r); repeat split; assumption. }
    destruct (Hfan _ Hl) as [E|E]; unfold cycle_label in E; discriminate.
Qed.

(** ** Graph construction *)
Module Graph.

Lemma edge_eqb_eq (e f : string * string) : edge_eqb e f = true <-> e = f.
Proof.
  destruct e as [a b], f as [c d]; unfold edge_eqb; simpl.
  rewrite andb_true_iff, !String.eqb_eq; split; [intros [-> ->]; reflexivity|].
  intros E; injection E as -> ->; split; reflexivity.
Qed.

Lemma add_edge_edges (G : graph) (u v : string) :
  NoDup (g_edges G) ->
  NoDup (g_edges (add_edge G u v)) /\
  (forall e, In e (g_edges (add_edge G u v)) <-> In e (g_edges G) \/ e = (u, v)).
Proof.
  intros Hnd; unfold add_edge; simpl.
  destruct (existsb (edge_eqb (u, v)) (g_edges G)) eqn:E.
  - apply existsb_exists in E as (f & Hf & Ef); apply edge_eqb_eq in Ef; subst f.
    split; [exact Hnd|]; intros e; split; [tauto|]; intros [H| ->]; assumption.
  - split.
    + apply NoDup_app; [exact Hnd|repeat constructor; simpl; tauto|].
      intros e He [<-|[]].
      assert (existsb (edge_eqb (u, v)) (g_edges G) = true)
        by (apply existsb_exists; exists (u, v); split; [exact He|apply edge_eqb_eq; reflexivity]).
      congruence.
    + intros e; rewrite in_app_iff; simpl; split; intros [H|H];
        [left; exact H | right; destruct H as [<-|[]]; reflexivity
        | left; exact H | right; left; symmetry; exact H].
Qed.

Lemma build_graph_edges_gen (txs : list transaction) (G0 : graph) :
  NoDup (g_edges G0) ->
  let G := fold_left (fun G t => add_edge G (sender_id t) (receiver_id t)) txs G0 in
  NoDup (g_edges G) /\
  (forall e, In e (g_edges G) <->
     In e (g_edges G0) \/ exists t, In t txs /\ e = (sender_id t, receiver_id t)).
Proof.
  revert G0; induction txs as [|t txs IH]; intros G0 Hnd; simpl.
  - split; [exact Hnd|]; intros e; split; [tauto|]; intros [H|(t & [] & _)]; exact H.
  - destruct (add_edge_edges G0 (sender_id t) (receiver_id t) Hnd) as [Hnd' Hin].
    destruct (IH _ Hnd') as [HndG HinG]; split; [exact HndG|].
    intros e; rewrite HinG, Hin; split.
    + intros [[H|H]|(t' & Ht' & He)]; [tauto| |].
      * right; exists t; tauto.
      * right; exists t'; tauto.
    + intros [H|(t' & [<-|Ht'] & He)]; [tauto|left; right; exact He|right; exists t'; tauto].
Qed.

Lemma build_graph_edges (txs : list transaction) :
  NoDup (g_edges (build_graph txs)) /\
  (forall e, In e (g_edges (build_graph txs)) <->
     exists t, In t txs /\ e = (sender_id t, receiver_id t)).
Proof.
  destruct (build_graph_edges_gen txs empty_graph (NoDup_nil _)) as [Hnd Hin].
  split; [exact Hnd|]; intros e; rewrite (Hin e); simpl; tauto.
Qed.

Lemma build_graph_nodes_gen (txs : list transaction) (G0 : graph) :
  g_nodes (fold_left (fun G t => add_edge G (sender_id t) (receiver_id t)) txs G0) =
  fold_left (fun ks x => add_node_list x ks)
            (flat_map (fun t => [sender_id t; receiver_id t]) txs) (g_nodes G0).
Proof.
  revert G0; induction txs as [|t txs IH]; intros G0; simpl; [reflexivity|].
  rewrite IH; reflexivity.
Qed.

(** [in_degree] counts the distinct senders to [n]. *)
Lemma in_degree_distinct (txs : list transaction) (n : string) :
  exists l, NoDup l /\
    (forall u, In u l <-> exists t, In t txs /\ sender_id t = u /\ receiver_id t = n) /\
    in_degree (build_graph txs) n = length l.
Proof.
  destruct (build_graph_edges txs) as [Hnd Hin].
  exists (map fst (filter (fun e => String.eqb (snd e) n) (g_edges (build_graph txs)))).
  split; [|split].
  - apply NoDup_map_NoDup_ForallPairs; [|apply NoDup_filter, Hnd].
    intros [a b] [c d] H1 H2; simpl; intros ->.
    apply filter_In in H1 as [_ H1], H2 as [_ H2]; simpl in *.
    apply String.eqb_eq in H1, H2; subst; reflexivity.
  - intros u; rewrite in_map_iff; split.
    + intros ([a b] & Ea & He); simpl in Ea; subst a.
      apply filter_In in He as [He Eb]; simpl in Eb; apply String.eqb_eq in Eb; subst b.
      apply Hin in He as (t & Ht & E); injection E as -> ->; exists t; tauto.
    + intros (t & Ht & <- & <-); exists (sender_id t, receiver_id t); split; [reflexivity|].
      apply filter_In; split; [apply Hin; exists t; tauto|apply String.eqb_refl].
  - unfold in_degree; rewrite length_map; reflexivity.
Qed.

(** [out_degree] counts the distinct receivers from [n]. *)
Lemma out_degree_distinct (txs : list transaction) (n : string) :
  exists l, NoDup l /\
    (forall v, In v l <-> exists t, In t txs /\ sender_id t = n /\ receiver_id t = v) /\
    out_degree (build_graph txs) n = length l.
Proof.
  destruct (build_graph_edges txs) as [Hnd Hin].
  exists (map snd (filter (fun e => String.eqb (fst e) n) (g_edges (build_graph txs)))).
  split; [|split].
  - apply NoDup_map_NoDup_ForallPairs; [|apply NoDup_filter, Hnd].
    intros [a b] [c d] H1 H2; simpl; intros ->.
    apply filter_In in H1 as [_ H1], H2 as [_ H2]; simpl in *.
    apply String.eqb_eq in H1, H2; subst; reflexivity.
  - intros v; rewrite in_map_iff; split.
    + intros ([a b] & Eb & He); simpl in Eb; subst b.
      apply filter_In in He as [He Ea]; simpl in Ea; apply String.eqb_eq in Ea; subst a.
      apply Hin in He as (t & Ht & E); injection E as -> ->; exists t; tauto.
    + intros (t & Ht & <- & <-); exists (sender_id t, receiver_id t); split; [reflexivity|].
      apply filter_In; split; [apply Hin; exists t; tauto|apply String.eqb_refl].
  - unfold out_degree; rewrite length_map; reflexivity.
Qed.

Lemma dlookup_fan_patterns (G : graph) (n : string) :
  Dict.dlookup (detect_fan_patterns G) n =
  if existsb (String.eqb n) (g_nodes G) then fan_labels G n else [].
Proof.
  unfold detect_fan_patterns; induction (g_nodes G) as [|x xs IH]; simpl; [reflexivity|].
  destruct (fan_labels G x) as [|l ls] eqn:E; simpl.
  - rewrite IH; destruct (String.eqb n x) eqn:Enx; simpl; [|reflexivity].
    apply String.eqb_eq in Enx; subst x; rewrite E.
    destruct (existsb _ xs); reflexivity.
  - destruct (String.eqb n x) eqn:Enx; simpl; [|exact IH].
    apply String.eqb_eq in Enx; subst x; rewrite E; reflexivity.
Qed.

Lemma nodupb_NoDup (l : list string) : nodupb l = true -> NoDup l.
Proof.
  induction l as [|x l IH]; simpl; intros H; [constructor|].
  apply andb_true_iff in H as [Hx Hl]; constructor; [|apply IH, Hl].
  intros Hin; apply negb_true_iff in Hx.
  assert (existsb (String.eqb x) l = true)
    by (apply existsb_exists; exists x; split; [exact Hin|apply String.eqb_refl]).
  congruence.
Qed.

Lemma no_cycle_without_edges (G : graph) (c : list string) :
  g_edges G = [] -> is_simple_cycleb G c = false.
Proof.
  intros E; destruct c as [|x [|y c]]; simpl; rewrite ?E; simpl;
    rewrite ?andb_false_r; reflexivity.
Qed.

End Graph.

(** ** Cycle filter (C1) *)

(** C1: when networkx yields only simple cycles of [G], every cycle kept by
    [detect_cycles] has between 3 and 5 nodes and no repeated node (so
    self-loops and 2-cycles are dropped), and a graph without edges gives no
    cycle. *)
Theorem detect_cycles_bounded_simple (rt : runtime) (G : graph) :
  nx_sound (nx_simple_cycles rt) G = true ->
  (forall c, In c (detect_cycles rt G) ->
     3 <= length c <= 5 /\ NoDup c /\ length c <> 1 /\ length c <> 2)
  /\ (g_edges G = [] -> detect_cycles rt G = []).
Proof.
  intros Hs; unfold nx_sound in Hs; rewrite forallb_forall in Hs.
  split.
  - intros c Hc; unfold detect_cycles in Hc.
    apply filter_In in Hc as [Hin Hlen].
    apply andb_true_iff in Hlen as [H3 H5]; apply Nat.leb_le in H3, H5.
    pose proof (Hs c Hin) as Hsc.
    destruct c as [|x c']; [discriminate|].
    unfold is_simple_cycleb in Hsc; apply andb_true_iff in Hsc as [Hnd _].
    repeat split; try lia; apply Graph.nodupb_NoDup, Hnd.
  - intros E; unfold detect_cycles.
    destruct (nx_simple_cycles rt G) as [|c cs] eqn:Ecs; [reflexivity|].
    exfalso; specialize (Hs c (or_introl eq_refl)).
    rewrite Graph.no_cycle_without_edges in Hs by exact E; discriminate.
Qed.

Definition tx (u v : string) : transaction := mk_tx "tx" u v 100 "2024-01-01 00:00:00".

(** A 3-cycle, a 2-cycle and a self-loop. *)
Definition txs_small : list transaction :=
  [tx "A" "B"; tx "B" "C"; tx "C" "A"; tx "A" "D"; tx "D" "A"; tx "E" "E"].

Lemma detect_cycles_bounded_simple_witness :
  nx_sound (nx_simple_cycles rt_ref) (build_graph txs_small) = true /\
  detect_cycles rt_ref (build_graph txs_small) = [["A"; "B"; "C"]] /\
  (forall c, In c (detect_cycles rt_ref (build_graph txs_small)) ->
     3 <= length c <= 5 /\ NoDup c /\ length c <> 1 /\ length c <> 2).
Proof.
  split; [vm_compute; reflexivity|split; [vm_compute; reflexivity|]].
  apply (proj1 (detect_cycles_bounded_simple rt_ref (build_graph txs_small)
                  ltac:(vm_compute; reflexivity))).
Defined.

(** ** Fan thresholds (C8) *)

(** C8: a node of the transaction graph gets [fan_in] exactly when its
    in-degree is at least 10 and [fan_out] exactly when its out-degree is at
    least 10, and these degrees count distinct senders and distinct
    receivers of its transactions. *)
Theorem fan_patterns_threshold (txs : list transaction) (n : string) :
  let G := build_graph txs in
  In n (g_nodes G) ->
  (In "fan_in" (Dict.dlookup (detect_fan_patterns G) n) <-> 10 <= in_degree G n)
  /\ (In "fan_out" (Dict.dlookup (detect_fan_patterns G) n) <-> 10 <= out_degree G n)
  /\ (exists senders, NoDup senders /\
        (forall u, In u senders <->
           exists t, In t txs /\ sender_id t = u /\ receiver_id t = n) /\
        in_degree G n = length senders)
  /\ (exists receivers, NoDup receivers /\
        (forall v, In v receivers <->
           exists t, In t txs /\ sender_id t = n /\ receiver_id t = v) /\
        out_degree G n = length receivers).
Proof.
  intros G Hn.
  assert (Hl : Dict.dlookup (detect_fan_patterns G) n = fan_labels G n).
  { rewrite Graph.dlookup_fan_patterns.
    replace (existsb (String.eqb n) (g_nodes G)) with true; [reflexivity|].
    symmetry; apply Analysis.member_existsb, Hn. }
  rewrite Hl; unfold fan_labels.
  split; [|split; [|split]].
  - destruct (Nat.leb 10 (in_degree G n)) eqn:Ei, (Nat.leb 10 (out_degree G n)) eqn:Eo;
      simpl; rewrite <- Nat.leb_le, Ei; intuition congruence.
  - destruct (Nat.leb 10 (in_degree G n)) eqn:Ei, (Nat.leb 10 (out_degree G n)) eqn:Eo;
      simpl; rewrite <- Nat.leb_le, Eo; intuition congruence.
  - apply Graph.in_degree_distinct.
  - apply Graph.out_degree_distinct.
Qed.

(** Ten distinct senders to "H", one of them twice. *)
Definition txs_fan_in : list transaction :=
  app (map (fun s => tx s "H") ["S0"; "S1"; "S2"; "S3"; "S4"; "S5"; "S6"; "S7"; "S8"; "S9"])
      [tx "S0" "H"].

Lemma fan_patterns_threshold_witness :
  In "H" (g_nodes (build_graph txs_fan_in)) /\
  in_degree (build_graph txs_fan_in) "H" = 10 /\
  (In "fan_in" (Dict.dlookup (detect_fan_patterns (build_graph txs_fan_in)) "H") <->
   10 <= in_degree (build_graph txs_fan_in) "H").
Proof.
  assert (Hn : In "H" (g_nodes (build_graph txs_fan_in))) by (vm_compute; tauto).
  split; [exact Hn|split; [vm_compute; reflexivity|]].
  apply (proj1 (fan_patterns_threshold txs_fan_in "H" Hn)).
Defined.

(** ** Order of the suspicious accounts (C3) *)

(** Distinct elements in order of first occurrence. *)
Definition first_occurrences (l : list string) : list string :=
  fold_left (fun ks x => add_node_list x ks) l [].

(** Whether [detect_fan_patterns] gives node [n] an entry. *)
Definition has_fan_label (G : graph) (n : string) : bool :=
  match fan_labels G n with [] => false | _ => true end.

(** The accounts of the input in the order they are read, sender first. *)
Definition appearance_order (txs : list transaction) : list string :=
  flat_map (fun t => [sender_id t; receiver_id t]) txs.

(** Tie order as the claim words it: equal-score accounts in order of first
    appearance in the transactions. *)
Definition ties_follow_input (txs : list transaction) (out : list suspicious_account) : Prop :=
  forall i j x y, i < j -> nth_error out i = Some x -> nth_error out j = Some y ->
    suspicion_score x = suspicion_score y ->
    index_of (account_id x) (appearance_order txs) <
    index_of (account_id y) (appearance_order txs).

(** "B" is read before "A", but the only cycle is A -> B -> C -> A. *)
Definition txs_rotation : list transaction :=
  [tx "B" "Z"; tx "A" "B"; tx "B" "C"; tx "C" "A"].

(** A runtime whose networkx yields the given cycle list. *)
Definition rt_cycles (cs : list (list string)) : runtime :=
  mk_runtime (fun _ => cs) set_first.

(** C3 (claim as stated, refuted): whichever rotation networkx yields for
    the only cycle of [txs_rotation], the three tied members are not listed
    in input order. *)
Lemma suspicious_order_not_input_order :
  ~ ties_follow_input txs_rotation (suspicious_accounts (analyze (rt_cycles [["A"; "B"; "C"]]) txs_rotation))
  /\ ~ ties_follow_input txs_rotation (suspicious_accounts (analyze (rt_cycles [["B"; "C"; "A"]]) txs_rotation))
  /\ ~ ties_follow_input txs_rotation (suspicious_accounts (analyze (rt_cycles [["C"; "A"; "B"]]) txs_rotation)).
Proof.
  unfold ties_follow_input; split; [|split]; intros H.
  - specialize (H 0 1); vm_compute in H.
    specialize (H _ _ ltac:(lia) eq_refl eq_refl eq_refl); vm_compute in H; lia.
  - specialize (H 1 2); vm_compute in H.
    specialize (H _ _ ltac:(lia) eq_refl eq_refl eq_refl); vm_compute in H; lia.
  - specialize (H 0 1); vm_compute in H.
    specialize (H _ _ ltac:(lia) eq_refl eq_refl eq_refl); vm_compute in H; lia.
Qed.

Lemma make_account_key (so : set_order) (rings : list fraud_ring) (e : string * list string) :
  account_id (make_account so rings e) = fst e.
Proof. destruct e; reflexivity. Qed.

Lemma fan_patterns_keys (G : graph) :
  map fst (detect_fan_patterns G) = filter (fun n => has_fan_label G n) (g_nodes G).
Proof.
  unfold detect_fan_patterns; induction (g_nodes G) as [|x xs IH]; simpl; [reflexivity|].
  destruct (has_fan_label G x) eqn:E; unfold has_fan_label in E;
    destruct (fan_labels G x); try discriminate; simpl; rewrite IH; reflexivity.
Qed.

(** C3 (amended): the accounts are sorted by non-increasing score; among
    equal scores they keep the order of the suspicious dictionary, whose keys
    are the members of the detected cycles in order of first occurrence along
    the cycle list, then the other fan-in/fan-out nodes in graph-node order,
    the order of first appearance in the transactions. *)
Theorem suspicious_accounts_order (rt : runtime) (txs : list transaction) :
  let G := build_graph txs in
  let out := suspicious_accounts (analyze rt txs) in
  Sorted Sort.score_ge out
  /\ (forall s, filter (Sort.with_score s) out =
                filter (Sort.with_score s) (unsorted_accounts rt G))
  /\ map account_id (unsorted_accounts rt G) =
       first_occurrences (concat (detect_cycles rt G) ++
                          filter (fun n => has_fan_label G n) (g_nodes G))
  /\ g_nodes G = first_occurrences (appearance_order txs).
Proof.
  cbv zeta; split; [|split; [|split]].
  - apply Sort.sort_desc_sorted.
  - intros s; apply Sort.filter_sort_desc.
  - rewrite Analysis.unsorted_accounts_eq, map_map.
    rewrite (map_ext _ fst (make_account_key _ _)).
    rewrite Analysis.final_dict_keys; unfold Analysis.fans_of.
    rewrite fan_patterns_keys; reflexivity.
  - unfold build_graph; rewrite Graph.build_graph_nodes_gen; reflexivity.
Qed.

(** What else [nx.simple_cycles] promises: every simple cycle of [G] is
    yielded, as one of its rotations, and no cycle is yielded twice. *)
Definition is_rotation (c c' : list string) : Prop :=
  exists k, c' = skipn k c ++ firstn k c.

Definition nx_complete (simple_cycles : graph -> list (list string)) (G : graph) : Prop :=
  forall c, is_simple_cycleb G c = true -> exists c', In c' (simple_cycles G) /\ is_rotation c c'.

Definition nx_once (simple_cycles : graph -> list (list string)) (G : graph) : Prop :=
  forall i j ci cj, i <> j -> nth_error (simple_cycles G) i = Some ci ->
    nth_error (simple_cycles G) j = Some cj -> ~ is_rotation ci cj.

Lemma path_edgesb_out (G : graph) (f : string) (c : list string) :
  path_edgesb G f c = true -> forall x, In x c -> exists y, In (x, y) (g_edges G).
Proof.
  induction c as [|x c IH]; simpl; [tauto|].
  assert (Hex : forall y, existsb (edge_eqb (x, y)) (g_edges G) = true ->
                          exists y', In (x, y') (g_edges G)).
  { intros y H; apply existsb_exists in H as (e & He & Ee).
    apply Graph.edge_eqb_eq in Ee; subst e; exists y; exact He. }
  destruct c as [|y c'].
  - intros H z [<-|[]]; apply (Hex f H).
  - intros H; apply andb_true_iff in H as [H1 H2].
    intros z [<-|Hz]; [apply (Hex y H1)|apply IH; assumption].
Qed.

Lemma rotation_graph_cycles (c : list string) :
  is_simple_cycleb (build_graph txs_rotation) c = true ->
  c = ["A"; "B"; "C"] \/ c = ["B"; "C"; "A"] \/ c = ["C"; "A"; "B"].
Proof.
  intros H.
  assert (Hin : forall x, In x c -> x = "A" \/ x = "B" \/ x = "C").
  { intros x Hx; destruct c as [|f c']; [discriminate|].
    apply andb_true_iff in H as [_ Hp].
    destruct (path_edgesb_out _ _ _ Hp x Hx) as (y & Hy).
    vm_compute in Hy; intuition congruence. }
  assert (Hlen : length c <= 3).
  { destruct c as [|f c']; [discriminate|].
    pose proof H as H'; apply andb_true_iff in H' as [Hnd _].
    apply Graph.nodupb_NoDup in Hnd.
    apply (NoDup_incl_length Hnd (l' := ["A"; "B"; "C"])).
    intros x Hx; destruct (Hin x Hx) as [->|[->| ->]]; simpl; tauto. }
  destruct c as [|x1 [|x2 [|x3 [|x4 c]]]]; simpl in Hlen; try lia;
    [discriminate| | |].
  - destruct (Hin x1) as [->|[->| ->]]; simpl; auto; vm_compute in H; discriminate.
  - destruct (Hin x1) as [->|[->| ->]]; simpl; auto;
      destruct (Hin x2) as [->|[->| ->]]; simpl; auto; vm_compute in H; discriminate.
  - destruct (Hin x1) as [->|[->| ->]]; simpl; auto;
      destruct (Hin x2) as [->|[->| ->]]; simpl; auto;
      destruct (Hin x3) as [->|[->| ->]]; simpl; auto;
      vm_compute in H; try discriminate; auto.
Qed.

(** Under its contract, networkx yields one of exactly three lists on the
    graph of [txs_rotation]: the ones refuted in
    [suspicious_order_not_input_order]. *)
Lemma rotation_graph_nx_output (simple_cycles : graph -> list (list string)) :
  let G := build_graph txs_rotation in
  nx_sound simple_cycles G = true -> nx_complete simple_cycles G -> nx_once simple_cycles G ->
  simple_cycles G = [["A"; "B"; "C"]] \/ simple_cycles G = [["B"; "C"; "A"]] \/
  simple_cycles G = [["C"; "A"; "B"]].
Proof.
  intros G Hs Hc Ho.
  unfold nx_sound in Hs; rewrite forallb_forall in Hs.
  destruct (Hc ["A"; "B"; "C"] ltac:(vm_compute; reflexivity)) as (c0 & Hc0 & _).
  unfold nx_once in Ho.
  destruct (simple_cycles G) as [|c1 [|c2 rest]] eqn:E.
  - contradiction.
  - destruct (rotation_graph_cycles c1 (Hs c1 (or_introl eq_refl))) as [->|[->| ->]]; auto.
  - exfalso.
    pose proof (rotation_graph_cycles c1 (Hs c1 (or_introl eq_refl))) as H1.
    pose proof (rotation_graph_cycles c2 (Hs c2 (or_intror (or_introl eq_refl)))) as H2.
    apply (Ho 0 1 c1 c2 ltac:(lia) eq_refl eq_refl).
    destruct H1 as [->|[->| ->]], H2 as [->|[->| ->]];
      solve [exists 0; reflexivity | exists 1; reflexivity | exists 2; reflexivity].
Qed.

(** ** Missing columns (C7) *)

Definition columns_without_timestamp : list string :=
  ["transaction_id"; "sender_id"; "receiver_id"; "amount"].

(** C7 (claim as stated, refuted): with [timestamp] missing the handler
    does not raise any error; it returns a plain text response. *)
Lemma missing_column_returns_text :
  upload_file rt_ref columns_without_timestamp txs_small =
    Returned (Text invalid_csv_msg, None)
  /\ forall exc, upload_file rt_ref columns_without_timestamp txs_small <> Raised exc.
Proof.
  split; [reflexivity|intros exc; vm_compute; discriminate].
Qed.

(** C7 (amended): when a required column is missing, [upload_file] returns
    the text ["Invalid CSV format. Please follow required structure."]
    whatever the rows are (no graph is built) and writes no report. *)
Theorem upload_missing_column (rt : runtime) (columns : list string) (txs : list transaction) :
  (exists c, In c required_columns /\ ~ In c columns) ->
  upload_file rt columns txs = Returned (Text invalid_csv_msg, None).
Proof.
  intros (c & Hreq & Hmiss); unfold upload_file.
  replace (forallb (fun c => existsb (String.eqb c) columns) required_columns) with false;
    [reflexivity|].
  symmetry; apply not_true_iff_false; rewrite forallb_forall; intros Hall.
  apply Hmiss, Analysis.member_existsb, Hall, Hreq.
Qed.

Lemma upload_missing_column_witness :
  (exists c, In c required_columns /\ ~ In c columns_without_timestamp) /\
  upload_file rt_ref columns_without_timestamp txs_small = Returned (Text invalid_csv_msg, None).
Proof.
  assert (H : exists c, In c required_columns /\ ~ In c columns_without_timestamp).
  { exists "timestamp"; split; [simpl; tauto|vm_compute; intuition discriminate]. }
  split; [exact H|apply (upload_missing_column rt_ref _ txs_small H)].
Defined.

(** ** Two runs (C9) *)

(** The same networkx enumeration, with set iteration in the other order:
    a run in another process, under another string hash seed. *)
Definition rt_ref_reversed : runtime := mk_runtime dfs_simple_cycles set_reversed.

(** X is on a 4-cycle and sends to ten accounts. *)
Definition txs_cycle_fan : list transaction :=
  app [tx "X" "B"; tx "B" "C"; tx "C" "D"; tx "D" "X"]
      (map (fun s => tx "X" s) ["R1"; "R2"; "R3"; "R4"; "R5"; "R6"; "R7"; "R8"; "R9"]).

(** C9 (claim as stated, refuted): two runs whose cycle enumerations agree
    can still list an account's detected patterns in different orders. *)
Lemma runs_differ_in_pattern_order :
  ~ (forall rt1 rt2 txs,
       nx_simple_cycles rt1 (build_graph txs) = nx_simple_cycles rt2 (build_graph txs) ->
       fraud_rings (analyze rt1 txs) = fraud_rings (analyze rt2 txs) /\
       suspicious_accounts (analyze rt1 txs) = suspicious_accounts (analyze rt2 txs)).
Proof.
  intros H; destruct (H rt_ref rt_ref_reversed txs_cycle_fan eq_refl) as [_ E].
  vm_compute in E; discriminate.
Qed.

Definition same_up_to_pattern_order (x y : suspicious_account) : Prop :=
  account_id x = account_id y /\ suspicion_score x = suspicion_score y /\
  account_ring_id x = account_ring_id y /\
  Permutation (detected_patterns x) (detected_patterns y).

Lemma Forall2_map_same {A B C : Type} (R : B -> C -> Prop) (f : A -> B) (g : A -> C) (l : list A) :
  (forall x, R (f x) (g x)) -> Forall2 R (map f l) (map g l).
Proof. intros H; induction l; simpl; constructor; auto. Qed.

(** C9 (amended): two runs on the same input whose networkx cycle lists
    agree give the same fraud rings and summary counts, and the same
    accounts in the same order with the same scores and ring ids; each
    account's detected patterns are the same labels, their order following
    the set iteration order of the run. *)
Theorem runs_agree_up_to_pattern_order (rt1 rt2 : runtime) (txs : list transaction) :
  nx_simple_cycles rt1 (build_graph txs) = nx_simple_cycles rt2 (build_graph txs) ->
  fraud_rings (analyze rt1 txs) = fraud_rings (analyze rt2 txs)
  /\ total_accounts_analyzed (analyze rt1 txs) = total_accounts_analyzed (analyze rt2 txs)
  /\ suspicious_accounts_flagged (analyze rt1 txs) = suspicious_accounts_flagged (analyze rt2 txs)
  /\ fraud_rings_detected (analyze rt1 txs) = fraud_rings_detected (analyze rt2 txs)
  /\ Forall2 same_up_to_pattern_order
       (suspicious_accounts (analyze rt1 txs)) (suspicious_accounts (analyze rt2 txs)).
Proof.
  intros Hnx.
  assert (Hc : Analysis.cycles_of rt1 txs = Analysis.cycles_of rt2 txs)
    by (unfold Analysis.cycles_of, detect_cycles; rewrite Hnx; reflexivity).
  assert (Hd : Analysis.final_dict rt1 txs = Analysis.final_dict rt2 txs)
    by (unfold Analysis.final_dict, suspicious_dict_of; fold (detect_cycles rt1 (build_graph txs));
        unfold Analysis.cycles_of in Hc; rewrite Hc; reflexivity).
  assert (Hacc : Forall2 same_up_to_pattern_order
                   (suspicious_accounts (analyze rt1 txs)) (suspicious_accounts (analyze rt2 txs))).
  { unfold analyze; simpl.
    apply Sort.sort_desc_Forall2; [intros a b Hab; apply Hab|].
    rewrite !Analysis.unsorted_accounts_eq, Hc, Hd.
    apply Forall2_map_same; intros [a ps]; repeat split; simpl.
    rewrite (set_list_perm (py_set rt1) ps), (set_list_perm (py_set rt2) ps); reflexivity. }
  assert (Hr : fraud_rings (analyze rt1 txs) = fraud_rings (analyze rt2 txs))
    by (rewrite !Analysis.fraud_rings_analyze, Hc; reflexivity).
  split; [exact Hr|split; [reflexivity|split; [|split; [|exact Hacc]]]].
  - unfold suspicious_accounts_flagged; apply (Forall2_length Hacc).
  - change (length (fraud_rings (analyze rt1 txs)) = length (fraud_rings (analyze rt2 txs))).
    rewrite Hr; reflexivity.
Qed.

Lemma runs_agree_up_to_pattern_order_witness :
  nx_simple_cycles rt_ref (build_graph txs_cycle_fan) =
    nx_simple_cycles rt_ref_reversed (build_graph txs_cycle_fan) /\
  Forall2 same_up_to_pattern_order
    (suspicious_accounts (analyze rt_ref txs_cycle_fan))
    (suspicious_accounts (analyze rt_ref_reversed txs_cycle_fan)).
Proof.
  split; [reflexivity|].
  apply (runs_agree_up_to_pattern_order rt_ref rt_ref_reversed txs_cycle_fan eq_refl).
Defined.

Lemma ring_members_flagged_witness :
  In (mk_ring "RING_001" ["A"; "B"; "C"] "cycle" 95) (fraud_rings (analyze rt_ref txs_small)) /\
  exists sa, In sa (suspicious_accounts (analyze rt_ref txs_small)) /\ account_id sa = "B" /\
    In ("cycle_length_" ++ py_str_nat 3)%string (detected_patterns sa).
Proof.
  assert (Hr : In (mk_ring "RING_001" ["A"; "B"; "C"] "cycle" 95)
                  (fraud_rings (analyze rt_ref txs_small))) by (vm_compute; tauto).
  split; [exact Hr|].
  apply (ring_members_flagged rt_ref txs_small _ Hr "B" ltac:(simpl; tauto)).
Defined.

Lemma account_ring_id_first_ring_witness :
  In (mk_account "X" 70 ["cycle_length_4"; "fan_out"] "RING_001")
     (suspicious_accounts (analyze rt_ref txs_cycle_fan)) /\
  ((exists pre r post, fraud_rings (analyze rt_ref txs_cycle_fan) = pre ++ r :: post /\
      In "X" (member_accounts r) /\
      (forall r', In r' pre -> ~ In "X" (member_accounts r')) /\ "RING_001" = ring_id r)
   \/ ((forall r, In r (fraud_rings (analyze rt_ref txs_cycle_fan)) -> ~ In "X" (member_accounts r))
       /\ "RING_001" = "N/A")).
Proof.
  assert (H : In (mk_account "X" 70 ["cycle_length_4"; "fan_out"] "RING_001")
                 (suspicious_accounts (analyze rt_ref txs_cycle_fan))) by (vm_compute; tauto).
  split; [exact H|].
  apply (account_ring_id_first_ring rt_ref txs_cycle_fan _ H).
Defined.

Lemma cycle_label_iff_ring_witness :
  In (mk_account "X" 70 ["cycle_length_4"; "fan_out"] "RING_001")
     (suspicious_accounts (analyze rt_ref txs_cycle_fan)) /\
  "RING_001" <> "N/A" /\ exists i, "RING_001" = ("RING_" ++ fmt03d i)%string.
Proof.
  assert (H : In (mk_account "X" 70 ["cycle_length_4"; "fan_out"] "RING_001")
                 (suspicious_accounts (analyze rt_ref txs_cycle_fan))) by (vm_compute; tauto).
  split; [exact H|].
  apply (proj1 (cycle_label_iff_ring rt_ref txs_cycle_fan _ H)).
  exists "cycle_length_4"; split; [simpl; tauto|reflexivity].
Defined.

Lemma fraud_rings_one_per_cycle_example :
  fraud_rings (analyze rt_ref txs_small) = [mk_ring "RING_001" ["A"; "B"; "C"] "cycle" 95] /\
  fmt03d 7 = "007" /\ fmt03d 42 = "042" /\ fmt03d 1000 = "1000".
Proof. vm_compute; repeat split. Qed.

(** * Further properties of the analysis *)

(** Whether [a] is a member of some cycle of [cs]. *)
Definition in_some_cycle (cs : list (list string)) (a : string) : bool :=
  existsb (fun c => existsb (String.eqb a) c) cs.

(** Consecutive transfers of a ring, the last one closing it. *)
Definition transfer_steps (m : list string) : list (string * string) :=
  combine m (tl m ++ [hd "" m]).

(** Decimal value of a string of digits (used to read [fmt03d] back). *)
Fixpoint digits_value (s : string) (acc : nat) : nat :=
  match s with
  | EmptyString => acc
  | String ch s' => digits_value s' (acc * 10 + (nat_of_ascii ch - 48))
  end.

Module Report.
Import Analysis.

Lemma appearance_In (txs : list transaction) (n : string) :
  In n (appearance_order txs) <-> exists t, In t txs /\ (sender_id t = n \/ receiver_id t = n).
Proof.
  unfold appearance_order; rewrite in_flat_map; simpl.
  split; intros (t & Ht & H); exists t; split; try exact Ht; intuition congruence.
Qed.

Lemma nodes_In (txs : list transaction) (n : string) :
  In n (g_nodes (build_graph txs)) <-> In n (appearance_order txs).
Proof.
  unfold build_graph; rewrite Graph.build_graph_nodes_gen, Dict.fold_add_node_list_In.
  simpl; tauto.
Qed.

Lemma nodes_NoDup (txs : list transaction) : NoDup (g_nodes (build_graph txs)).
Proof.
  unfold build_graph; rewrite Graph.build_graph_nodes_gen.
  apply Dict.fold_add_node_list_NoDup; constructor.
Qed.

Lemma degrees_non_node (txs : list transaction) (a : string) :
  ~ In a (g_nodes (build_graph txs)) ->
  in_degree (build_graph txs) a = 0 /\ out_degree (build_graph txs) a = 0.
Proof.
  intros Ha; destruct (Graph.build_graph_edges txs) as [_ Hin].
  assert (Hno : forall e, In e (g_edges (build_graph txs)) -> fst e <> a /\ snd e <> a).
  { intros e He; apply Hin in He as (t & Ht & ->); simpl.
    split; intros <-; apply Ha, nodes_In, appearance_In; exists t; tauto. }
  unfold in_degree, out_degree; split.
  - destruct (filter _ _) as [|e l] eqn:E; [reflexivity|exfalso].
    assert (He : In e (filter (fun e => String.eqb (snd e) a) (g_edges (build_graph txs))))
      by (rewrite E; left; reflexivity).
    apply filter_In in He as [He Eq]; apply String.eqb_eq in Eq.
    apply (proj2 (Hno e He) Eq).
  - destruct (filter _ _) as [|e l] eqn:E; [reflexivity|exfalso].
    assert (He : In e (filter (fun e => String.eqb (fst e) a) (g_edges (build_graph txs))))
      by (rewrite E; left; reflexivity).
    apply filter_In in He as [He Eq]; apply String.eqb_eq in Eq.
    apply (proj1 (Hno e He) Eq).
Qed.

Lemma fan_labels_in_detect (G : graph) (a : string) :
  NoDup (g_nodes G) ->
  fan_labels_in (detect_fan_patterns G) a =
  if existsb (String.eqb a) (g_nodes G) then fan_labels G a else [].
Proof.
  unfold fan_labels_in, detect_fan_patterns.
  induction (g_nodes G) as [|x xs IH]; intros Hnd; simpl; [reflexivity|].
  inversion Hnd as [|? ? Hx Hxs]; subst.
  rewrite flat_map_app, IH by exact Hxs.
  destruct (String.eqb a x) eqn:E; simpl.
  - apply String.eqb_eq in E; subst x.
    replace (existsb (String.eqb a) xs) with false
      by (symmetry; apply not_true_iff_false; intros H; apply Hx, member_existsb, H).
    destruct (fan_labels G a) as [|l ls]; simpl; rewrite ?String.eqb_refl, ?app_nil_r; reflexivity.
  - destruct (fan_labels G x); simpl; rewrite ?E; reflexivity.
Qed.

Lemma fan_labels_in_build (txs : list transaction) (a : string) :
  fan_labels_in (fans_of txs) a = fan_labels (build_graph txs) a.
Proof.
  unfold fans_of; rewrite fan_labels_in_detect by apply nodes_NoDup.
  destruct (existsb (String.eqb a) (g_nodes (build_graph txs))) eqn:E; [reflexivity|].
  assert (Ha : ~ In a (g_nodes (build_graph txs)))
    by (intros H; apply member_existsb in H; congruence).
  destruct (degrees_non_node txs a Ha) as [Hi Ho].
  unfold fan_labels; rewrite Hi, Ho; reflexivity.
Qed.

Lemma existsb_cycle_labels (f : string -> bool) (b : bool) (cs : list (list string)) (a : string) :
  (forall c, f (cycle_label c) = b) ->
  existsb f (Dict.cycle_labels_of cs a) = b && in_some_cycle cs a.
Proof.
  intros Hf; unfold Dict.cycle_labels_of, in_some_cycle.
  induction cs as [|c cs IH]; simpl; [rewrite andb_false_r; reflexivity|].
  rewrite existsb_app, IH, andb_orb_distrib_r; f_equal.
  rewrite <- (Hf c); generalize (cycle_label c) as lbl.
  intros lbl; induction c as [|x c IHc]; simpl; [rewrite andb_false_r; reflexivity|].
  destruct (String.eqb a x); simpl; [rewrite IHc; destruct (f lbl); reflexivity|exact IHc].
Qed.

Lemma cycle_labels_nil (cs : list (list string)) (a : string) :
  in_some_cycle cs a = false -> Dict.cycle_labels_of cs a = [].
Proof.
  unfold in_some_cycle, Dict.cycle_labels_of; induction cs as [|c cs IH]; simpl; [reflexivity|].
  intros H; apply orb_false_iff in H as [Hc Hcs]; rewrite IH by exact Hcs.
  rewrite app_nil_r; generalize (cycle_label c) as lbl; intros lbl.
  clear IH Hcs; induction c as [|x c IHc]; simpl in *; [reflexivity|].
  apply orb_false_iff in Hc as [Hx Hc]; rewrite Hx; exact (IHc Hc).
Qed.

Lemma in_some_cycle_iff (cs : list (list string)) (a : string) :
  in_some_cycle cs a = true <-> exists c, In c cs /\ In a c.
Proof.
  unfold in_some_cycle; rewrite existsb_exists; split;
    intros (c & Hc & Ha); exists c; split; try exact Hc; apply member_existsb; exact Ha.
Qed.

(** The entry of one account: its score, labels and ring. *)
Definition entry_score (cs : list (list string)) (G : graph) (a : string) : Z :=
  Z.min ((if in_some_cycle cs a then 50 else 0) +
         (if Nat.leb 10 (in_degree G a) then 20 else 0) +
         (if Nat.leb 10 (out_degree G a) then 20 else 0))%Z 100.

Lemma calculate_score_entry (cs : list (list string)) (G : graph) (a : string) :
  calculate_score (Dict.cycle_labels_of cs a ++ fan_labels G a) = entry_score cs G a.
Proof.
  unfold calculate_score, entry_score.
  rewrite !existsb_app.
  rewrite (existsb_cycle_labels _ true) by reflexivity.
  rewrite (existsb_cycle_labels (String.eqb "fan_in") false) by reflexivity.
  rewrite (existsb_cycle_labels (String.eqb "fan_out") false) by reflexivity.
  unfold fan_labels.
  destruct (Nat.leb 10 (in_degree G a)), (Nat.leb 10 (out_degree G a)),
           (in_some_cycle cs a); reflexivity.
Qed.

Lemma account_shape (rt : runtime) (txs : list transaction) (sa : suspicious_account) :
  In sa (suspicious_accounts (analyze rt txs)) ->
  let cs := cycles_of rt txs in
  let G := build_graph txs in
  let a := account_id sa in
  (in_some_cycle cs a = true \/ 10 <= in_degree G a \/ 10 <= out_degree G a)
  /\ suspicion_score sa = calculate_score (Dict.cycle_labels_of cs a ++ fan_labels G a)
  /\ suspicion_score sa = entry_score cs G a
  /\ Permutation (detected_patterns sa) (nodup string_dec (Dict.cycle_labels_of cs a ++ fan_labels G a))
  /\ account_ring_id sa = find_ring_id (Dict.make_rings 1 cs) a.
Proof.
  intros Hsa; apply In_suspicious_accounts in Hsa as (a & Hkey & ->).
  cbv zeta; simpl.
  rewrite final_dict_lookup, fan_labels_in_build, calculate_score_entry.
  split; [|split; [reflexivity|split; [reflexivity|split; [apply set_list_perm|reflexivity]]]].
  apply final_dict_keys_In in Hkey as [Hc|Hf].
  - left; apply in_some_cycle_iff; apply in_concat in Hc as (c & Hc & Ha); exists c; tauto.
  - right; unfold fans_of, detect_fan_patterns in Hf.
    apply in_map_iff in Hf as ([n ls] & En & Hn); simpl in En; subst n.
    apply in_flat_map in Hn as (n & _ & Hn).
    destruct (fan_labels (build_graph txs) n) as [|l ls'] eqn:E; [contradiction|].
    destruct Hn as [Hn|[]]; injection Hn as -> _.
    unfold fan_labels in E.
    destruct (Nat.leb 10 (in_degree (build_graph txs) a)) eqn:Ei;
      [left; apply Nat.leb_le, Ei|].
    destruct (Nat.leb 10 (out_degree (build_graph txs) a)) eqn:Eo;
      [right; apply Nat.leb_le, Eo|discriminate].
Qed.

Lemma ring_id_not_na_iff (cs : list (list string)) (a : string) :
  find_ring_id (Dict.make_rings 1 cs) a <> "N/A" <-> in_some_cycle cs a = true.
Proof.
  split.
  - intros H; destruct (in_some_cycle cs a) eqn:E; [reflexivity|exfalso; apply H].
    apply find_ring_id_none; intros r Hr Ha.
    destruct (make_rings_In _ _ _ Hr) as (i & _ & Hc & _).
    assert (in_some_cycle cs a = true)
      by (apply in_some_cycle_iff; exists (member_accounts r); tauto).
    congruence.
  - intros H; apply in_some_cycle_iff in H.
    destruct (find_ring_id_make_rings 1 cs a H) as [i ->]; discriminate.
Qed.

End Report.

Module Extra.
Import Analysis Report.

Lemma score_ring_iff (rt : runtime) (txs : list transaction) (sa : suspicious_account) :
  In sa (suspicious_accounts (analyze rt txs)) ->
  ((50 <= suspicion_score sa)%Z <-> account_ring_id sa <> "N/A")
  /\ (20 <= suspicion_score sa)%Z.
Proof.
  intros Hsa; destruct (account_shape rt txs sa Hsa) as (Hwhy & _ & Hs & _ & Hr).
  rewrite Hs, Hr, ring_id_not_na_iff; unfold entry_score.
  destruct (in_some_cycle _ _), (Nat.leb 10 (in_degree _ _)) eqn:Ei,
           (Nat.leb 10 (out_degree _ _)) eqn:Eo; simpl;
    try (split; [split; intros; first [reflexivity | lia | discriminate] | lia]).
  exfalso; destruct Hwhy as [H|[H|H]]; [discriminate|apply Nat.leb_le in H; congruence..].
Qed.

Lemma StronglySorted_nth {A : Type} (R : A -> A -> Prop) (l : list A) :
  StronglySorted R l ->
  forall i j x y, i < j -> nth_error l i = Some x -> nth_error l j = Some y -> R x y.
Proof.
  induction 1 as [|z l Hl IH Hz]; intros i j x y Hij Hi Hj; [destruct i; discriminate|].
  destruct i as [|i], j as [|j]; simpl in *; try lia.
  - injection Hi as <-; rewrite Forall_forall in Hz; apply Hz.
    apply nth_error_In in Hj; exact Hj.
  - apply (IH i j); auto; lia.
Qed.

(** X1: [calculate_score] only ever yields 0, 20, 40, 50, 70 or 90: the
    clamp to 100 never applies. *)
Theorem calculate_score_values (patterns : list string) :
  In (calculate_score patterns) [0; 20; 40; 50; 70; 90]%Z /\ (calculate_score patterns < 100)%Z.
Proof.
  unfold calculate_score.
  destruct (existsb _ patterns), (existsb (String.eqb "fan_in") patterns),
           (existsb (String.eqb "fan_out") patterns); simpl; split; try lia; tauto.
Qed.

(** X2: the score of a suspicious account is 50 if it lies on a detected
    cycle, plus 20 if its in-degree is at least 10, plus 20 if its out-degree
    is at least 10 (at most 100). *)
Theorem suspicion_score_formula (rt : runtime) (txs : list transaction) (sa : suspicious_account) :
  In sa (suspicious_accounts (analyze rt txs)) ->
  let G := build_graph txs in
  let a := account_id sa in
  suspicion_score sa =
    Z.min ((if in_some_cycle (detect_cycles rt G) a then 50 else 0) +
           (if Nat.leb 10 (in_degree G a) then 20 else 0) +
           (if Nat.leb 10 (out_degree G a) then 20 else 0))%Z 100.
Proof.
  intros Hsa; destruct (account_shape rt txs sa Hsa) as (_ & _ & Hs & _).
  exact Hs.
Qed.

Definition sa_X : suspicious_account :=
  mk_account "X" 70 ["cycle_length_4"; "fan_out"] "RING_001".

Lemma sa_X_listed : In sa_X (suspicious_accounts (analyze rt_ref txs_cycle_fan)).
Proof. vm_compute; tauto. Qed.

Lemma suspicion_score_formula_witness :
  In sa_X (suspicious_accounts (analyze rt_ref txs_cycle_fan)) /\
  suspicion_score sa_X =
    Z.min ((if in_some_cycle (detect_cycles rt_ref (build_graph txs_cycle_fan)) "X" then 50 else 0) +
           (if Nat.leb 10 (in_degree (build_graph txs_cycle_fan) "X") then 20 else 0) +
           (if Nat.leb 10 (out_degree (build_graph txs_cycle_fan) "X") then 20 else 0))%Z 100.
Proof.
  split; [exact sa_X_listed|].
  apply (suspicion_score_formula rt_ref txs_cycle_fan sa_X sa_X_listed).
Defined.

(** X3: the listed patterns of a suspicious account are non-empty and free
    of duplicates, and its score is [calculate_score] of exactly these
    patterns. *)
Theorem detected_patterns_consistent (rt : runtime) (txs : list transaction) (sa : suspicious_account) :
  In sa (suspicious_accounts (analyze rt txs)) ->
  detected_patterns sa <> [] /\ NoDup (detected_patterns sa) /\
  suspicion_score sa = calculate_score (detected_patterns sa).
Proof.
  intros Hsa; destruct (account_shape rt txs sa Hsa) as (Hwhy & Hs & _ & Hp & _).
  set (raw := Dict.cycle_labels_of (cycles_of rt txs) (account_id sa) ++
              fan_labels (build_graph txs) (account_id sa)) in *.
  assert (Hmem : forall x, In x (detected_patterns sa) <-> In x raw).
  { intros x; split; intros H.
    - apply (Permutation_in _ Hp), nodup_In in H; exact H.
    - apply (Permutation_in _ (Permutation_sym Hp)), nodup_In, H. }
  split; [|split].
  - assert (Hne : raw <> []).
    { unfold raw; destruct Hwhy as [Hc|[Hi|Ho]].
      + apply in_some_cycle_iff in Hc as (c & Hc & Ha).
        intros E; apply app_eq_nil in E as [E _].
        assert (Hl : In (cycle_label c) (Dict.cycle_labels_of (cycles_of rt txs) (account_id sa)))
          by (apply cycle_labels_of_In; exists c; tauto).
        rewrite E in Hl; exact Hl.
      + unfold fan_labels; apply Nat.leb_le in Hi; rewrite Hi; intros E.
        apply app_eq_nil in E as [_ E]; discriminate.
      + unfold fan_labels; apply Nat.leb_le in Ho; rewrite Ho; intros E.
        apply app_eq_nil in E as [_ E]; destruct (Nat.leb 10 (in_degree _ _)); simpl in E; discriminate. }
    destruct raw as [|x r]; [congruence|].
    intros E; assert (Hx : In x (detected_patterns sa)) by (apply Hmem; left; reflexivity).
    rewrite E in Hx; exact Hx.
  - apply (Permutation_NoDup (Permutation_sym Hp)), NoDup_nodup.
  - rewrite Hs; apply Scoring.score_same_members; intros x; rewrite Hmem; reflexivity.
Qed.

Lemma detected_patterns_consistent_witness :
  In sa_X (suspicious_accounts (analyze rt_ref txs_cycle_fan)) /\
  suspicion_score sa_X = calculate_score (detected_patterns sa_X).
Proof.
  split; [exact sa_X_listed|].
  apply (detected_patterns_consistent rt_ref txs_cycle_fan sa_X sa_X_listed).
Defined.

(** X4: every label listed for a suspicious account is one of
    [cycle_length_3], [cycle_length_4], [cycle_length_5], [fan_in],
    [fan_out]. *)
Theorem detected_patterns_allowed (rt : runtime) (txs : list transaction) (sa : suspicious_account) :
  In sa (suspicious_accounts (analyze rt txs)) ->
  forall p, In p (detected_patterns sa) -> In p Scoring.allowed_labels.
Proof.
  intros Hsa p Hp; destruct (account_shape rt txs sa Hsa) as (_ & _ & _ & Hperm & _).
  apply (Permutation_in _ Hperm), nodup_In, in_app_or in Hp as [Hp|Hp].
  - apply cycle_labels_of_In in Hp as (c & Hc & _ & ->).
    unfold cycles_of, detect_cycles in Hc; apply filter_In in Hc as [_ Hl].
    apply andb_true_iff in Hl as [H3 H5]; apply Nat.leb_le in H3, H5.
    unfold cycle_label.
    destruct (length c) as [|[|[|[|[|[|k]]]]]]; try lia; simpl; tauto.
  - unfold fan_labels in Hp.
    destruct (Nat.leb 10 _), (Nat.leb 10 _); simpl in Hp; simpl; intuition (subst; tauto).
Qed.

Lemma detected_patterns_allowed_witness :
  In sa_X (suspicious_accounts (analyze rt_ref txs_cycle_fan)) /\
  In "cycle_length_4" Scoring.allowed_labels.
Proof.
  split; [exact sa_X_listed|].
  apply (detected_patterns_allowed rt_ref txs_cycle_fan sa_X sa_X_listed); simpl; tauto.
Defined.

(** X5: a suspicious account scores at least 50 exactly when it has a ring
    id (not ["N/A"]); every suspicious account scores at least 20. *)
Theorem score_at_least_50_iff_ring (rt : runtime) (txs : list transaction) (sa : suspicious_account) :
  In sa (suspicious_accounts (analyze rt txs)) ->
  ((50 <= suspicion_score sa)%Z <-> account_ring_id sa <> "N/A")
  /\ (20 <= suspicion_score sa)%Z.
Proof. apply score_ring_iff. Qed.

Lemma score_at_least_50_iff_ring_witness :
  In sa_X (suspicious_accounts (analyze rt_ref txs_cycle_fan)) /\ (20 <= suspicion_score sa_X)%Z.
Proof.
  split; [exact sa_X_listed|].
  apply (score_at_least_50_iff_ring rt_ref txs_cycle_fan sa_X sa_X_listed).
Defined.

(** X6: in [suspicious_accounts], every account with a ring id comes before
    every account without one. *)
Theorem ring_accounts_listed_first (rt : runtime) (txs : list transaction) :
  forall i j x y, i < j ->
  nth_error (suspicious_accounts (analyze rt txs)) i = Some x ->
  nth_error (suspicious_accounts (analyze rt txs)) j = Some y ->
  account_ring_id y <> "N/A" -> account_ring_id x <> "N/A".
Proof.
  intros i j x y Hij Hx Hy Hry.
  pose proof (Sort.sort_desc_sorted (unsorted_accounts rt (build_graph txs))) as Hs.
  apply Sorted_StronglySorted in Hs; [|intros a b c; unfold Sort.score_ge; lia].
  pose proof (StronglySorted_nth _ _ Hs i j x y Hij Hx Hy) as Hge; unfold Sort.score_ge in Hge.
  apply nth_error_In in Hx, Hy.
  apply (score_ring_iff rt txs x Hx).
  apply (score_ring_iff rt txs y Hy) in Hry; lia.
Qed.

Lemma ring_accounts_listed_first_witness :
  nth_error (suspicious_accounts (analyze rt_ref txs_cycle_fan)) 0 = Some sa_X /\
  account_ring_id sa_X <> "N/A".
Proof.
  assert (H0 : nth_error (suspicious_accounts (analyze rt_ref txs_cycle_fan)) 0 = Some sa_X)
    by (vm_compute; reflexivity).
  split; [exact H0|].
  apply (ring_accounts_listed_first rt_ref txs_cycle_fan 0 1 sa_X
           (mk_account "B" 50 ["cycle_length_4"] "RING_001") ltac:(lia) H0
           ltac:(vm_compute; reflexivity) ltac:(discriminate)).
Defined.

Lemma fan_labels_nonempty (G : graph) (a : string) :
  has_fan_label G a = true <-> 10 <= in_degree G a \/ 10 <= out_degree G a.
Proof.
  unfold has_fan_label, fan_labels.
  destruct (Nat.leb 10 (in_degree G a)) eqn:Ei, (Nat.leb 10 (out_degree G a)) eqn:Eo;
    rewrite ?Nat.leb_le, ?Nat.leb_gt in *; simpl; split; intros; try lia; try reflexivity.
Qed.

Lemma account_ids_keys (rt : runtime) (txs : list transaction) :
  Permutation (map account_id (suspicious_accounts (analyze rt txs)))
              (map fst (final_dict rt txs)).
Proof.
  change (suspicious_accounts (analyze rt txs))
    with (sort_desc (unsorted_accounts rt (build_graph txs))).
  rewrite (Permutation_map account_id (Sort.sort_desc_perm _)), unsorted_accounts_eq, map_map.
  apply Permutation_refl'; apply map_ext; intros e; apply make_account_key.
Qed.

(** X7: the accounts of [suspicious_accounts] are, each once, exactly the
    members of the detected cycles and the accounts with in-degree or
    out-degree at least 10; [suspicious_accounts_flagged] is their number. *)
Theorem flagged_accounts_exact (rt : runtime) (txs : list transaction) :
  let r := analyze rt txs in
  let G := build_graph txs in
  NoDup (map account_id (suspicious_accounts r)) /\
  suspicious_accounts_flagged r = length (suspicious_accounts r) /\
  forall a, In a (map account_id (suspicious_accounts r)) <->
    (exists c, In c (detect_cycles rt G) /\ In a c) \/
    10 <= in_degree G a \/ 10 <= out_degree G a.
Proof.
  cbv zeta; pose proof (account_ids_keys rt txs) as Hp.
  split; [|split; [reflexivity|]].
  - apply (Permutation_NoDup (Permutation_sym Hp)), final_dict_NoDup.
  - intros a; split; intros H.
    + apply (Permutation_in _ Hp), final_dict_keys_In in H as [H|H].
      * left; apply in_concat in H as (c & Hc & Ha); exists c; tauto.
      * right; unfold fans_of in H; rewrite fan_patterns_keys in H.
        apply filter_In in H as [_ H]; apply fan_labels_nonempty; exact H.
    + apply (Permutation_in _ (Permutation_sym Hp)), final_dict_keys_In.
      destruct H as [(c & Hc & Ha)|H].
      * left; apply in_concat; exists c; tauto.
      * right; unfold fans_of; rewrite fan_patterns_keys; apply filter_In; split.
        -- destruct (in_dec string_dec a (g_nodes (build_graph txs))) as [Hn|Hn]; [exact Hn|].
           apply degrees_non_node in Hn; lia.
        -- apply fan_labels_nonempty; exact H.
Qed.

Lemma fan_in_label (G : graph) (a : string) :
  In "fan_in" (fan_labels G a) <-> 10 <= in_degree G a.
Proof.
  unfold fan_labels; destruct (Nat.leb 10 (in_degree G a)) eqn:Ei,
    (Nat.leb 10 (out_degree G a)); rewrite ?Nat.leb_le, ?Nat.leb_gt in Ei; simpl;
    intuition (try discriminate; try lia).
Qed.

Lemma fan_out_label (G : graph) (a : string) :
  In "fan_out" (fan_labels G a) <-> 10 <= out_degree G a.
Proof.
  unfold fan_labels; destruct (Nat.leb 10 (in_degree G a)),
    (Nat.leb 10 (out_degree G a)) eqn:Eo; rewrite ?Nat.leb_le, ?Nat.leb_gt in Eo; simpl;
    intuition (try discriminate; try lia).
Qed.

(** X8: a suspicious account lists [fan_in] exactly when its in-degree is at
    least 10, and [fan_out] exactly when its out-degree is at least 10. *)
Theorem fan_labels_reported (rt : runtime) (txs : list transaction) (sa : suspicious_account) :
  In sa (suspicious_accounts (analyze rt txs)) ->
  let G := build_graph txs in
  (In "fan_in" (detected_patterns sa) <-> 10 <= in_degree G (account_id sa)) /\
  (In "fan_out" (detected_patterns sa) <-> 10 <= out_degree G (account_id sa)).
Proof.
  intros Hsa; cbv zeta; destruct (account_shape rt txs sa Hsa) as (_ & _ & _ & Hp & _).
  assert (Hmem : forall x, In x (detected_patterns sa) <->
            In x (Dict.cycle_labels_of (cycles_of rt txs) (account_id sa)) \/
            In x (fan_labels (build_graph txs) (account_id sa))).
  { intros x; rewrite <- in_app_iff; split; intros H.
    - apply (Permutation_in _ Hp), nodup_In in H; exact H.
    - apply (Permutation_in _ (Permutation_sym Hp)), nodup_In, H. }
  assert (Hnc : forall x, In x (Dict.cycle_labels_of (cycles_of rt txs) (account_id sa)) ->
                  x <> "fan_in" /\ x <> "fan_out").
  { intros x Hx; apply cycle_labels_of_In in Hx as (c & _ & _ & ->).
    unfold cycle_label; simpl; split; discriminate. }
  rewrite !Hmem; split; split.
  - intros [H|H]; [apply Hnc in H; tauto|apply fan_in_label, H].
  - intros H; right; apply fan_in_label, H.
  - intros [H|H]; [apply Hnc in H; tauto|apply fan_out_label, H].
  - intros H; right; apply fan_out_label, H.
Qed.

Lemma fan_labels_reported_witness :
  In sa_X (suspicious_accounts (analyze rt_ref txs_cycle_fan)) /\
  10 <= out_degree (build_graph txs_cycle_fan) "X".
Proof.
  split; [exact sa_X_listed|].
  apply (proj2 (fan_labels_reported rt_ref txs_cycle_fan sa_X sa_X_listed)); simpl; tauto.
Defined.

(** X9: [total_accounts_analyzed] is the number of distinct accounts that
    send or receive in some transaction. *)
Theorem total_accounts_distinct (rt : runtime) (txs : list transaction) :
  exists accounts, NoDup accounts /\
    (forall n, In n accounts <-> exists t, In t txs /\ (sender_id t = n \/ receiver_id t = n)) /\
    total_accounts_analyzed (analyze rt txs) = length accounts.
Proof.
  exists (g_nodes (build_graph txs)); split; [apply nodes_NoDup|split; [|reflexivity]].
  intros n; rewrite nodes_In; apply appearance_In.
Qed.

Lemma add_edge_existing (G : graph) (u v : string) :
  In u (g_nodes G) -> In v (g_nodes G) -> In (u, v) (g_edges G) -> add_edge G u v = G.
Proof.
  intros Hu Hv Huv; destruct G as [ns es]; unfold add_edge, add_node_list; simpl in *.
  apply member_existsb in Hu, Hv; rewrite Hu, Hv.
  assert (He : existsb (edge_eqb (u, v)) es = true).
  { apply existsb_exists; exists (u, v); split; [exact Huv|apply Graph.edge_eqb_eq; reflexivity]. }
  rewrite He; reflexivity.
Qed.

Lemma build_graph_pairs_gen (txs txs' : list transaction) (G : graph) :
  map (fun t => (sender_id t, receiver_id t)) txs =
  map (fun t => (sender_id t, receiver_id t)) txs' ->
  fold_left (fun G t => add_edge G (sender_id t) (receiver_id t)) txs G =
  fold_left (fun G t => add_edge G (sender_id t) (receiver_id t)) txs' G.
Proof.
  revert txs' G; induction txs as [|t txs IH]; intros [|t' txs'] G E; simpl in E;
    try discriminate; [reflexivity|].
  injection E as E1 E2 E3; simpl; rewrite E1, E2; apply IH, E3.
Qed.

(** X10: appending transactions whose sender and receiver already transact
    in the same direction in the input leaves the whole analysis unchanged. *)
Theorem repeated_pairs_no_effect (rt : runtime) (txs extra : list transaction) :
  (forall t, In t extra -> exists t', In t' txs /\
     sender_id t' = sender_id t /\ receiver_id t' = receiver_id t) ->
  analyze rt (txs ++ extra) = analyze rt txs.
Proof.
  intros Hex.
  assert (Hg : build_graph (txs ++ extra) = build_graph txs).
  { unfold build_graph at 1; rewrite fold_left_app; fold (build_graph txs).
    induction extra as [|t extra IH]; [reflexivity|]; simpl.
    destruct (Hex t (or_introl eq_refl)) as (t' & Ht' & Es & Er).
    rewrite add_edge_existing.
    - apply IH; intros x Hx; apply Hex; right; exact Hx.
    - apply nodes_In, appearance_In; exists t'; split; [exact Ht'|left; exact Es].
    - apply nodes_In, appearance_In; exists t'; split; [exact Ht'|right; exact Er].
    - apply (proj2 (Graph.build_graph_edges txs)); exists t'; split; [exact Ht'|].
      rewrite Es, Er; reflexivity. }
  unfold analyze; rewrite Hg; reflexivity.
Qed.

Lemma repeated_pairs_no_effect_witness :
  analyze rt_ref (txs_small ++ [tx "B" "C"; tx "E" "E"]) = analyze rt_ref txs_small.
Proof.
  apply repeated_pairs_no_effect.
  intros t [<-|[<-|[]]]; [exists (tx "B" "C")|exists (tx "E" "E")]; simpl; tauto.
Defined.

(** X11: only the sender and receiver of each transaction matter: two inputs
    with the same sequence of (sender, receiver) pairs give the same report,
    whatever their ids, amounts and timestamps. *)
Theorem only_pairs_matter (rt : runtime) (txs txs' : list transaction) :
  map (fun t => (sender_id t, receiver_id t)) txs =
  map (fun t => (sender_id t, receiver_id t)) txs' ->
  analyze rt txs = analyze rt txs'.
Proof.
  intros E; unfold analyze, build_graph; rewrite (build_graph_pairs_gen txs txs' _ E).
  reflexivity.
Qed.

Lemma only_pairs_matter_witness :
  analyze rt_ref txs_small =
  analyze rt_ref (map (fun t => mk_tx "T9" (sender_id t) (receiver_id t) 7
                                 "2025-06-30 23:59:59") txs_small).
Proof. apply only_pairs_matter; reflexivity. Defined.

(** X12: on an input without transactions, when [nx.simple_cycles] yields
    only simple cycles, the handler (with all required columns) renders and
    writes an empty report: no rings, no accounts, all counts 0. *)
Theorem empty_input_empty_report (rt : runtime) (columns : list string) :
  (forall c, In c required_columns -> In c columns) ->
  nx_sound (nx_simple_cycles rt) empty_graph = true ->
  upload_file rt columns [] =
    Returned (Rendered [] [], Some (mk_report [] [] 0 0 0)).
Proof.
  intros Hcols Hnx.
  assert (Hc : cycles_of rt [] = []).
  { unfold cycles_of, detect_cycles; unfold nx_sound in Hnx; change (build_graph []) with empty_graph.
    destruct (nx_simple_cycles rt empty_graph) as [|c cs]; [reflexivity|].
    simpl in Hnx; rewrite Graph.no_cycle_without_edges in Hnx by reflexivity; discriminate. }
  assert (Hr : fraud_rings (analyze rt []) = []) by (rewrite fraud_rings_analyze, Hc; reflexivity).
  assert (Ha : suspicious_accounts (analyze rt []) = []).
  { pose proof (Permutation_length (account_ids_keys rt [])) as Hl.
    rewrite final_dict_keys, Hc, length_map in Hl.
    destruct (suspicious_accounts (analyze rt [])); [reflexivity|discriminate]. }
  assert (Hrep : analyze rt [] = mk_report [] [] 0 0 0).
  { transitivity (mk_report (suspicious_accounts (analyze rt [])) (fraud_rings (analyze rt []))
                    0 (length (suspicious_accounts (analyze rt [])))
                    (length (fraud_rings (analyze rt [])))); [reflexivity|].
    rewrite Ha, Hr; reflexivity. }
  assert (Hok : forallb (fun c => existsb (String.eqb c) columns) required_columns = true).
  { apply forallb_forall; intros c Hc'; apply member_existsb, Hcols, Hc'. }
  unfold upload_file; rewrite Hok; cbn [negb]; cbv iota zeta; rewrite Hrep; reflexivity.
Qed.

Lemma empty_input_empty_report_witness :
  upload_file rt_ref required_columns [] =
    Returned (Rendered [] [], Some (mk_report [] [] 0 0 0)).
Proof.
  apply empty_input_empty_report; [tauto|vm_compute; reflexivity].
Defined.

Lemma dec_aux_value (fuel n : nat) (acc : string) :
  n < fuel -> digits_value (dec_aux fuel n acc) 0 = digits_value acc n.
Proof.
  revert n acc; induction fuel as [|f IH]; intros n acc Hn; [lia|].
  pose proof (Nat.mod_upper_bound n 10 ltac:(lia)) as Hm.
  pose proof (Nat.div_mod_eq n 10) as Hd.
  cbn [dec_aux]; destruct (Nat.ltb n 10) eqn:E.
  - apply Nat.ltb_lt in E; cbn [digits_value].
    rewrite Ascii.nat_ascii_embedding by lia; f_equal.
    rewrite Nat.mod_small by lia; lia.
  - apply Nat.ltb_ge in E; rewrite IH by (pose proof (Nat.div_lt n 10 ltac:(lia) ltac:(lia)); lia).
    cbn [digits_value]; rewrite Ascii.nat_ascii_embedding by lia; f_equal; lia.
Qed.

Lemma fmt03d_value (n : nat) : digits_value (fmt03d n) 0 = n.
Proof.
  assert (H : digits_value (py_str_nat n) 0 = n)
    by (unfold py_str_nat; rewrite dec_aux_value by lia; reflexivity).
  unfold fmt03d; revert H; generalize (py_str_nat n) as s; intros s H.
  destruct (3 - String.length s) as [|[|[|[|k]]]] eqn:E; try lia; exact H.
Qed.

Lemma fmt03d_inj (i j : nat) : fmt03d i = fmt03d j -> i = j.
Proof. intros E; pose proof (fmt03d_value i); pose proof (fmt03d_value j); congruence. Qed.

Lemma append_cancel_l (p x y : string) : String.append p x = String.append p y -> x = y.
Proof. induction p as [|ch p IH]; simpl; [tauto|]; intros E; injection E; exact IH. Qed.

Lemma make_rings_ids_NoDup (n : nat) (cs : list (list string)) :
  NoDup (map ring_id (Dict.make_rings n cs)).
Proof.
  revert n; induction cs as [|c cs IH]; intros n; cbn [Dict.make_rings map]; constructor; [|apply IH].
  intros Hin; apply in_map_iff in Hin as (r & Er & Hr).
  apply make_rings_In in Hr as (i & Hi & _ & Er').
  rewrite Er' in Er; unfold make_ring in Er; cbn [ring_id] in Er.
  apply append_cancel_l, fmt03d_inj in Er; lia.
Qed.

(** X13: the fraud rings have pairwise distinct ids. *)
Theorem ring_ids_distinct (rt : runtime) (txs : list transaction) :
  NoDup (map ring_id (fraud_rings (analyze rt txs))).
Proof. rewrite fraud_rings_analyze; apply make_rings_ids_NoDup. Qed.

Lemma path_steps (G : graph) (f : string) (c : list string) :
  path_edgesb G f c = true ->
  forall p, In p (combine c (tl c ++ [f])) -> In p (g_edges G).
Proof.
  induction c as [|x c IH]; [simpl; tauto|].
  assert (Hedge : forall e, existsb (edge_eqb e) (g_edges G) = true -> In e (g_edges G)).
  { intros e He; apply existsb_exists in He as (e' & He' & Ee).
    apply Graph.edge_eqb_eq in Ee; subst; exact He'. }
  destruct c as [|y c'].
  - simpl; intros H p [<-|[]]; apply Hedge, H.
  - intros H; change (existsb (edge_eqb (x, y)) (g_edges G) && path_edgesb G f (y :: c') = true) in H.
    apply andb_true_iff in H as [H1 H2].
    intros p Hp; change (In p ((x, y) :: combine (y :: c') (tl (y :: c') ++ [f]))) in Hp.
    destruct Hp as [<-|Hp]; [apply Hedge, H1|apply (IH H2), Hp].
Qed.

(** X14: when [nx.simple_cycles] yields only simple cycles, every fraud ring
    is a real loop of transfers: each member sends to the next one, and the
    last to the first, in some transaction of the input. *)
Theorem rings_are_transfer_loops (rt : runtime) (txs : list transaction) :
  nx_sound (nx_simple_cycles rt) (build_graph txs) = true ->
  forall r, In r (fraud_rings (analyze rt txs)) ->
  forall x y, In (x, y) (transfer_steps (member_accounts r)) ->
  exists t, In t txs /\ sender_id t = x /\ receiver_id t = y.
Proof.
  intros Hnx r Hr x y Hxy.
  rewrite fraud_rings_analyze in Hr; apply make_rings_In in Hr as (_ & _ & Hc & _).
  unfold cycles_of, detect_cycles in Hc; apply filter_In in Hc as [Hc _].
  unfold nx_sound in Hnx; rewrite forallb_forall in Hnx; apply Hnx in Hc.
  destruct (member_accounts r) as [|f rest] eqn:Em; [discriminate|].
  apply andb_true_iff in Hc as [_ Hp].
  apply (path_steps _ _ _ Hp), (proj2 (Graph.build_graph_edges txs)) in Hxy as (t & Ht & E).
  injection E as -> ->; exists t; tauto.
Qed.

Lemma rings_are_transfer_loops_witness :
  exists t, In t txs_small /\ sender_id t = "C" /\ receiver_id t = "A".
Proof.
  apply (rings_are_transfer_loops rt_ref txs_small ltac:(vm_compute; reflexivity)
           (mk_ring "RING_001" ["A"; "B"; "C"] "cycle" 95) ltac:(vm_compute; tauto)).
  vm_compute; tauto.
Defined.

Lemma existsb_incl (f : string -> bool) (ps qs : list string) :
  (forall p, In p ps -> In p qs) -> existsb f ps = true -> existsb f qs = true.
Proof.
  intros Hi H; apply existsb_exists in H as (p & Hp & Ep).
  apply existsb_exists; exists p; auto.
Qed.

(** X15: [calculate_score] is monotone: a list of patterns that contains
    every pattern of another never scores lower. *)
Theorem calculate_score_monotone (ps qs : list string) :
  (forall p, In p ps -> In p qs) -> (calculate_score ps <= calculate_score qs)%Z.
Proof.
  intros Hi; unfold calculate_score.
  destruct (existsb (str_contains "cycle") ps) eqn:E1;
    [rewrite (existsb_incl _ _ _ Hi E1)|destruct (existsb (str_contains "cycle") qs)];
  (destruct (existsb (String.eqb "fan_in") ps) eqn:E2;
    [rewrite (existsb_incl _ _ _ Hi E2)|destruct (existsb (String.eqb "fan_in") qs)]);
  (destruct (existsb (String.eqb "fan_out") ps) eqn:E3;
    [rewrite (existsb_incl _ _ _ Hi E3)|destruct (existsb (String.eqb "fan_out") qs)]);
  lia.
Qed.

Lemma calculate_score_monotone_witness :
  (calculate_score ["fan_in"] <= calculate_score ["cycle_length_3"; "fan_in"])%Z.
Proof. apply calculate_score_monotone; simpl; tauto. Defined.

End Extra.
